(** * mini-sys-info: the sampling and rate-derivation engine of [main.cpp]

    A shallow embedding of the counter readers and of the delta engine of
    the terminal system monitor, and the properties its specification
    states about them.

    Conventions of the embedding.
    - [unsigned long long] (the source's [ull]) is a [Z] in [0, 2^64); every
      arithmetic operation of the source on it is written with its
      wrap-around ([U64.add], [U64.sub], [U64.mul]).
    - [double] is Rocq's primitive binary64 [float]; the operations are the
      IEEE 754 ones ([PrimFloat.mul], [PrimFloat.div]), and the conversion
      of an [ull] to [double] is the round-to-nearest-even one.
    - The function-local [static] variables of [get_cpu_usage] and the
      variable [previous_network_stats] of [main] are explicit states that
      each call takes and returns.
    - What the operating system answers (whether a file opens, what the
      extraction operators leave in the variables, what [statvfs] returns)
      is an argument of the function that asks for it. *)

From Stdlib Require Import ZArith Lia Floats.
From stdpp Require Import gmap strings.
From stdpp Require Import pretty.

Local Open Scope Z_scope.

(** ** 64-bit unsigned arithmetic *)

Module U64.

Definition modulus : Z := 2 ^ 64.

Definition wrap (z : Z) : Z := z mod modulus.

Definition add (a b : Z) : Z := wrap (a + b).
Definition sub (a b : Z) : Z := wrap (a - b).
Definition mul (a b : Z) : Z := wrap (a * b).

Definition in_range (z : Z) : Prop := 0 <= z < modulus.

(** [(double)z] for an [ull] [z]: the nearest binary64 value, ties to
    even.  This is the specification the Standard Library gives to
    [PrimFloat.of_uint63], taken at a 64-bit argument. *)
Definition to_double (z : Z) : float :=
  SF2Prim (binary_normalize prec emax z 0 false).

End U64.

(** ** CPU usage: [get_cpu_usage] *)

Module Cpu.

(** The eight aggregate counters of the first line of /proc/stat, in the
    order the source extracts them. *)
Record CpuTicks : Type := mkTicks {
  user : Z; nice : Z; system : Z; idle : Z;
  iowait : Z; irq : Z; softirq : Z; steal : Z
}.

(** What opening and reading /proc/stat gives.  [StatOpened parsed t]:
    the file opened, [t] is what the eight variables hold after the chain
    of extractions, and [parsed] tells whether every extraction succeeded
    (the stream is still good).  When [parsed] is [false] the variables
    that no extraction wrote hold whatever was in them. *)
Inductive proc_stat : Type :=
| StatUnopenable
| StatOpened (parsed : bool) (t : CpuTicks).

(** The three [static] locals. *)
Record cpu_state : Type := mkCpu {
  first_call : bool;
  last_total : Z;
  last_idle : Z
}.

Definition cpu_initial : cpu_state :=
  {| first_call := true; last_total := 0; last_idle := 0 |}.

Definition idle_time (t : CpuTicks) : Z := U64.add (idle t) (iowait t).

Definition non_idle_time (t : CpuTicks) : Z :=
  U64.add (U64.add (U64.add (U64.add (U64.add (user t) (nice t)) (system t))
                             (irq t)) (softirq t)) (steal t).

Definition total_time (t : CpuTicks) : Z :=
  U64.add (idle_time t) (non_idle_time t).

(** The [return] statement a call leaves through. *)
Inductive cpu_exit : Type :=
| ExitOpenError   (* return -1.0, the file did not open *)
| ExitFirstCall   (* return 0.0 inside if (first_call) *)
| ExitZeroDelta   (* return 0.0 when total_delta == 0 *)
| ExitDivide.     (* return (100.0 * ...) / total_delta *)

Record cpu_outcome : Type := mkOutcome {
  usage : float;
  via : cpu_exit;
  next : cpu_state
}.

Definition seed (total idle_t : Z) : cpu_state :=
  {| first_call := false; last_total := total; last_idle := idle_t |}.

Definition get_cpu_usage (st : cpu_state) (src : proc_stat) : cpu_outcome :=
  match src with
  | StatUnopenable =>
      {| usage := (-1)%float; via := ExitOpenError; next := st |}
  | StatOpened _ t =>
      let idle_t := idle_time t in
      let total_t := total_time t in
      if first_call st then
        {| usage := 0%float; via := ExitFirstCall; next := seed total_t idle_t |}
      else
        let total_delta := U64.sub total_t (last_total st) in
        let idle_delta := U64.sub idle_t (last_idle st) in
        let st' := {| first_call := first_call st;
                      last_total := total_t; last_idle := idle_t |} in
        if total_delta =? 0 then
          {| usage := 0%float; via := ExitZeroDelta; next := st' |}
        else
          {| usage := PrimFloat.div
                        (PrimFloat.mul 100%float
                           (U64.to_double (U64.sub total_delta idle_delta)))
                        (U64.to_double total_delta);
             via := ExitDivide; next := st' |}
  end.

(** Successive polls: the usages reported, oldest first, and the state
    left behind. *)
Fixpoint poll_all (st : cpu_state) (srcs : list proc_stat)
  : list float * cpu_state :=
  match srcs with
  | [] => ([], st)
  | src :: rest =>
      let o := get_cpu_usage st src in
      let '(us, st') := poll_all (next o) rest in
      (usage o :: us, st')
  end.

(** A sample given by its two sums: all the time that is not idle is
    user time. *)
Definition sample (total idle_t : Z) : CpuTicks :=
  mkTicks (total - idle_t) 0 0 idle_t 0 0 0 0.

End Cpu.

(** ** Disk usage: [get_disk_usage] *)

Module Disk.

(** The three fields of [struct statvfs] the source reads. *)
Record statvfs_t : Type := mkStatvfs {
  f_blocks : Z;
  f_frsize : Z;
  f_bavail : Z
}.

Definition total_space (fs : statvfs_t) : Z :=
  U64.mul (f_blocks fs) (f_frsize fs).

Definition available_space (fs : statvfs_t) : Z :=
  U64.mul (f_bavail fs) (f_frsize fs).

(** [None]: the call [statvfs(path, &filesystem_stats)] returned nonzero. *)
Definition get_disk_usage (r : option statvfs_t) : float :=
  match r with
  | None => (-1)%float
  | Some fs =>
      if total_space fs =? 0 then 0%float
      else
        PrimFloat.div
          (PrimFloat.mul
             (U64.to_double (U64.sub (total_space fs) (available_space fs)))
             100%float)
          (U64.to_double (total_space fs))
  end.

End Disk.

(** ** Network rates: the per-interface loop of [main] *)

Module Net.

(** [std::map<std::string, std::pair<ull, ull>>]: interface name to
    (rx_bytes, tx_bytes). *)
Abbreviation net_stats := (gmap string (Z * Z)).

(** [previous_rx], [previous_tx]: initialised to 0 and overwritten only
    when [previous_network_stats.count(interface_name)] is nonzero. *)
Definition previous_of (prev : net_stats) (name : string) : Z * Z :=
  match prev !! name with
  | Some p => p
  | None => (0, 0)
  end.

(** [(current >= previous) ? (current - previous) : 0] *)
Definition clamp_delta (current previous : Z) : Z :=
  if previous <=? current then U64.sub current previous else 0.

Definition rx_delta (prev : net_stats) (name : string) (cur : Z * Z) : Z :=
  clamp_delta (fst cur) (fst (previous_of prev name)).

Definition tx_delta (prev : net_stats) (name : string) (cur : Z * Z) : Z :=
  clamp_delta (snd cur) (snd (previous_of prev name)).

(** One iteration of the loop over [current_network_stats]; [acc] is
    ([total_rx_rate], [total_tx_rate]). *)
Definition add_interface (prev : net_stats)
    (name : string) (cur : Z * Z) (acc : Z * Z) : Z * Z :=
  if String.eqb name "lo" then acc
  else (U64.add (fst acc) (rx_delta prev name cur),
        U64.add (snd acc) (tx_delta prev name cur)).

(** The whole loop.  [std::map] visits the interfaces in the order of
    their names and [map_fold] in an order of its own; the two agree
    because the iterations commute ([add_interface_comm] below). *)
Definition total_rates (prev cur : net_stats) : Z * Z :=
  map_fold (add_interface prev) (0, 0) cur.

(** One pass of the main loop over the network counters: the rates, and
    the new [previous_network_stats]. *)
Definition poll_network (prev cur : net_stats) : (Z * Z) * net_stats :=
  (total_rates prev cur, cur).

End Net.

(** ** The rounding of binary64, for the proofs

    Auxiliary notions used to reason on the Standard Library's
    specification of the primitive floating-point operations. *)

Module Binary64.

(** Position of the fraction [N / D] between [m] and [m + 1]. *)
Definition loc_of (N D m : Z) : location :=
  if N =? m * D then loc_Exact else loc_Inexact (2 * N ?= (2 * m + 1) * D).

(** The mantissa of [mrs], with its round and sticky bits, locates the
    fraction [N / D]. *)
Definition inb (mrs : shr_record) (N D : Z) : Prop :=
  0 <= shr_m mrs
  /\ shr_m mrs * D <= N < (shr_m mrs + 1) * D
  /\ loc_of_shr_record mrs = loc_of N D (shr_m mrs).

Abbreviation fexp64 := (fexp prec emax).

(** The result of rounding a mantissa [m] at exponent [e]: a finite number
    if the exponent fits, an infinity otherwise. *)
Definition finite_or_inf (m e : Z) : spec_float :=
  if e <=? 971 then S754_finite false (Z.to_pos m) e else S754_infinity false.

(** The canonical mantissa and exponent of a positive integer below
    [2^53]: it is shifted left until it has 53 digits. *)
Definition mant (z : Z) : Z := z * 2 ^ (53 - Zdigits2 z).
Definition expo (z : Z) : Z := Zdigits2 z - 53.

(** 100.0: the mantissa is [25 * 2^48]. *)
Definition hundred : spec_float := S754_finite false 7036874417766400 (-46).

(** Zero, a positive finite number or plus infinity. *)
Definition nonneg_sf (s : spec_float) : bool :=
  match s with
  | S754_zero false | S754_finite false _ _ | S754_infinity false => true
  | _ => false
  end.

End Binary64.

(** ** RAM usage: [get_ram_usage] *)

Module Ram.

(** What opening and reading /proc/meminfo gives.  [MemOpened entries]:
    the file opened, and [entries] are the triples (key, value, unit) that
    the condition [meminfo >> key >> value >> unit] of the loop extracts,
    in order, until an extraction fails. *)
Inductive meminfo : Type :=
| MemUnopenable
| MemOpened (entries : list (string * Z * string)).

(** The loop, from given values of [mem_total] and [mem_available]: it
    stops at the first entry whose key is "MemAvailable:". *)
Fixpoint scan (entries : list (string * Z * string))
    (mem_total mem_available : Z) : Z * Z :=
  match entries with
  | [] => (mem_total, mem_available)
  | (key, value, _) :: rest =>
      if String.eqb key "MemTotal:" then scan rest value mem_available
      else if String.eqb key "MemAvailable:" then (mem_total, value)
      else scan rest mem_total mem_available
  end.

Definition get_ram_usage (src : meminfo) : float :=
  match src with
  | MemUnopenable => (-1)%float
  | MemOpened entries =>
      let '(mem_total, mem_available) := scan entries 0 0 in
      if mem_total =? 0 then (-1)%float
      else
        let used_memory := U64.to_double (U64.sub mem_total mem_available) in
        PrimFloat.div (PrimFloat.mul used_memory 100%float)
                      (U64.to_double mem_total)
  end.

End Ram.

(** ** CPU temperature: [get_cpu_temperature] *)

Module Thermal.

(** What one thermal zone gives: its file does not open, or it opens and
    [temp_file >> temperature_value] fails, or it succeeds and leaves the
    value read in the [long]. *)
Inductive zone_read : Type :=
| ZoneUnopenable
| ZoneUnparsed
| ZoneValue (temperature_value : Z).

(** [(double)z] for a [long] [z]: the nearest binary64 value, ties to
    even. *)
Definition long_to_double (z : Z) : float :=
  SF2Prim (binary_normalize prec emax z 0 false).

(** A zone that gives no value: the loop goes on to the next. *)
Definition unreadable (r : zone_read) : Prop :=
  forall v, r <> ZoneValue v.

(** The two [return]s inside the loop. *)
Definition to_celsius (temperature_value : Z) : float :=
  if 1000 <? temperature_value
  then PrimFloat.div (long_to_double temperature_value) 1000%float
  else long_to_double temperature_value.

(** The loop from [zone], with [remaining] iterations to go. *)
Fixpoint probe (zones : nat -> zone_read) (zone remaining : nat) : float :=
  match remaining with
  | O => (-1)%float
  | S r =>
      match zones zone with
      | ZoneValue temperature_value => to_celsius temperature_value
      | _ => probe zones (S zone) r
      end
  end.

(** [zones n] is what /sys/class/thermal/thermal_zone<n>/temp gives. *)
Definition get_cpu_temperature (zones : nat -> zone_read) : float :=
  probe zones 0 10.

(** [if (temperature >= 0)] in [main]: the temperature is printed, and
    "Temperature: Not available" otherwise. *)
Definition temperature_shown (temperature : float) : bool :=
  PrimFloat.leb 0%float temperature.

End Thermal.

(** ** The sign of a rounded number, for the proofs *)

Module Binary64Sign.

(** [f] with its sign bit replaced by [s]. *)
Definition with_sign (s : bool) (f : spec_float) : spec_float :=
  match f with
  | S754_zero _ => S754_zero s
  | S754_infinity _ => S754_infinity s
  | S754_nan => S754_nan
  | S754_finite _ m e => S754_finite s m e
  end.

End Binary64Sign.

(** ** Network counters: [get_network_stats] *)

Module NetRead.
Import Stdlib.Strings.Ascii.

(** The character [':']. *)
Definition colon : ascii := ":"%char.

(** [interface_name.back()], when the string is not empty. *)
Fixpoint back (s : string) : option Ascii.ascii :=
  match s with
  | EmptyString => None
  | String c EmptyString => Some c
  | String _ rest => back rest
  end.

(** [interface_name.pop_back()] *)
Fixpoint pop_back (s : string) : string :=
  match s with
  | EmptyString => EmptyString
  | String _ EmptyString => EmptyString
  | String c rest => String c (pop_back rest)
  end.

(** [if (!interface_name.empty() && interface_name.back() == ':')
    interface_name.pop_back();] *)
Definition strip_colon (interface_name : string) : string :=
  match back interface_name with
  | Some c => if Ascii.eqb c colon then pop_back interface_name
              else interface_name
  | None => interface_name
  end.

(** What the extractions make of one line of /proc/net/dev.  [LineBlank]:
    [line_stream >> interface_name] fails, the line holds no word.
    [LineFields interface_name rx_bytes tx_bytes]: the first word of the
    line, and what [rx_bytes] and [tx_bytes], which start at 0, hold after
    the extractions from the rest of the line. *)
Inductive dev_line : Type :=
| LineBlank
| LineFields (interface_name : string) (rx_bytes tx_bytes : Z).

(** One iteration of the loop over the lines. *)
Definition record_line (interface_stats : Net.net_stats) (line : dev_line)
  : Net.net_stats :=
  match line with
  | LineBlank => interface_stats
  | LineFields interface_name rx_bytes tx_bytes =>
      <[strip_colon interface_name := (rx_bytes, tx_bytes)]> interface_stats
  end.

(** [None]: the file does not open.  [Some lines]: the lines of the file,
    the two header lines included; these two are read and dropped,
    whatever they hold. *)
Definition get_network_stats (src : option (list dev_line)) : Net.net_stats :=
  match src with
  | None => ∅
  | Some lines => fold_left record_line (drop 2 lines) ∅
  end.

(** The name a line is recorded under, if it is recorded. *)
Definition line_key (line : dev_line) : option string :=
  match line with
  | LineBlank => None
  | LineFields interface_name _ _ => Some (strip_colon interface_name)
  end.

End NetRead.

(** ** Adding the rates of successive polls, for the properties *)

Module NetSum.

(** The sum of two pairs of rates, in 64-bit arithmetic as the rates
    themselves. *)
Definition add_rates (r1 r2 : Z * Z) : Z * Z :=
  (U64.add (fst r1) (fst r2), U64.add (snd r1) (snd r2)).

End NetSum.

(** ** The tests of [main] on the three percentages *)

Module MainLoop.

(** [if (cpu_usage >= 0)], [if (ram_usage >= 0)], [if (disk_usage >= 0)]:
    the bar of the metric is drawn. *)
Definition bar_drawn (usage : float) : bool := PrimFloat.leb 0%float usage.

End MainLoop.

(** ** Formatting: [format_uptime] and [format_bytes] *)

Module Fmt.

(** [(int)f] for a [double] [f]: the value with its fraction cut off,
    toward zero.  [None] where the conversion is undefined: a NaN, an
    infinity, or an integer part that is not an [int]. *)
Definition double_to_int (f : float) : option Z :=
  match Prim2SF f with
  | S754_zero _ => Some 0
  | S754_finite s m e =>
      let magnitude :=
        if 0 <=? e then Z.pos m * 2 ^ e else Z.pos m / 2 ^ (- e) in
      let z := if s then - magnitude else magnitude in
      if (- 2 ^ 31 <=? z) && (z <? 2 ^ 31) then Some z else None
  | S754_infinity _ | S754_nan => None
  end.

(** The divisions and remainders of [int]s round toward zero. *)
Definition days (total_seconds : Z) : Z := Z.quot total_seconds 86400.

Definition hours (total_seconds : Z) : Z :=
  Z.quot (Z.rem total_seconds 86400) 3600.

Definition minutes (total_seconds : Z) : Z :=
  Z.quot (Z.rem total_seconds 3600) 60.

(** The text for a given [total_seconds]; an [int] is written in decimal
    ([pretty]). *)
Definition uptime_text (total_seconds : Z) : string :=
  if 0 <? days total_seconds then
    pretty (days total_seconds) +:+ "d "
    +:+ pretty (hours total_seconds) +:+ "h "
    +:+ pretty (minutes total_seconds) +:+ "m"
  else if 0 <? hours total_seconds then
    pretty (hours total_seconds) +:+ "h "
    +:+ pretty (minutes total_seconds) +:+ "m"
  else
    pretty (minutes total_seconds) +:+ "m "
    +:+ pretty (Z.rem total_seconds 60) +:+ "s".

Definition format_uptime (seconds : float) : option string :=
  match double_to_int seconds with
  | Some total_seconds => Some (uptime_text total_seconds)
  | None => None
  end.

(** A string of decimal digits. *)
Fixpoint all_digits (s : string) : Prop :=
  match s with
  | EmptyString => True
  | String c rest =>
      (48 <= Ascii.nat_of_ascii c <= 57)%nat /\ all_digits rest
  end.

End Fmt.

(** ** Formatting: [format_bytes] *)

Module FmtBytes.

Definition units : list string := ["B"; "KB"; "MB"; "GB"; "TB"].

(** [while (value >= 1024.0 && unit_index < 4)
       { value /= 1024.0; unit_index++; }]
    run for at most [fuel] iterations: [None] when the test still holds
    after them. *)
Fixpoint scale (fuel : nat) (value : float) (unit_index : Z)
  : option (float * Z) :=
  if PrimFloat.leb 1024%float value && (unit_index <? 4) then
    match fuel with
    | O => None
    | S fuel' => scale fuel' (PrimFloat.div value 1024%float) (unit_index + 1)
    end
  else Some (value, unit_index).

(** The quotient of two integers to the nearest integer, a tie going to
    the even one. *)
Definition div_nearest_even (n d : Z) : Z :=
  let q := n / d in
  match 2 * (n mod d) ?= d with
  | Lt => q
  | Eq => if Z.even q then q else q + 1
  | Gt => q + 1
  end.

(** The number of hundredths in [m * 2^e], to the nearest. *)
Definition hundredths (m : positive) (e : Z) : Z :=
  if 0 <=? e then 100 * (Z.pos m * 2 ^ e)
  else div_nearest_even (100 * Z.pos m) (2 ^ (- e)).

Definition two_digits (n : Z) : string :=
  if n <? 10 then "0" +:+ pretty n else pretty n.

(** A number of hundredths written with two decimals. *)
Definition decimal2 (h : Z) : string :=
  pretty (h / 100) +:+ "." +:+ two_digits (h mod 100).

Definition sign_text (s : bool) : string :=
  if s then "-" else EmptyString.

(** [formatted << std::fixed << std::setprecision(2) << value]: the exact
    value of the [double] rounded to two decimals. *)
Definition fixed2 (value : float) : string :=
  match Prim2SF value with
  | S754_zero s => sign_text s +:+ "0.00"
  | S754_finite s m e => sign_text s +:+ decimal2 (hundredths m e)
  | S754_infinity s => sign_text s +:+ "inf"
  | S754_nan => "nan"
  end.

(** [format_bytes]; [None] when the loop runs out of [fuel] or
    [units[unit_index]] is outside the array. *)
Definition format_bytes (fuel : nat) (bytes : Z) : option string :=
  match scale fuel (U64.to_double bytes) 0 with
  | Some (value, unit_index) =>
      match units !! Z.to_nat unit_index with
      | Some unit => Some (fixed2 value +:+ " " +:+ unit)
      | None => None
      end
  | None => None
  end.

(** For the properties: the largest unit that does not exceed [bytes],
    and a binary64 number with its exponent lowered by [10 * k]. *)
Definition largest_unit (bytes : Z) : Z :=
  if bytes <? 1024 then 0
  else if bytes <? 1024 ^ 2 then 1
  else if bytes <? 1024 ^ 3 then 2
  else if bytes <? 1024 ^ 4 then 3
  else 4.

Definition scaled (k : Z) (x : spec_float) : spec_float :=
  match x with
  | S754_finite s m e => S754_finite s m (e - 10 * k)
  | _ => x
  end.

End FmtBytes.

(** ** Drawing: [draw_progress_bar] and [draw_box] *)

Module Bar.

Definition bar_width : Z := 35.

Inductive cell : Type := Full | Empty.

(** [(int)(percentage / 100.0 * bar_width)], computed before the
    percentage is brought into range. *)
Definition filled_blocks (percentage : float) : option Z :=
  Fmt.double_to_int
    (PrimFloat.mul (PrimFloat.div percentage 100%float) 35%float).

(** [if (percentage < 0.0) percentage = 0.0;
     if (percentage > 100.0) percentage = 100.0;] *)
Definition clamp (percentage : float) : float :=
  let percentage :=
    if PrimFloat.ltb percentage 0%float then 0%float else percentage in
  if PrimFloat.ltb 100%float percentage then 100%float else percentage.

(** The loop over the cells of the bar. *)
Definition cells (filled_blocks : Z) : list cell :=
  (fun i : Z => if i <? filled_blocks then Full else Empty)
    <$> seqZ 0 bar_width.

(** What is drawn between the label and the percent sign: the cells and
    the number printed after them; [None] where the cast to [int] is
    undefined. *)
Definition draw_progress_bar (percentage : float)
  : option (list cell * float) :=
  match filled_blocks percentage with
  | Some blocks => Some (cells blocks, clamp percentage)
  | None => None
  end.

End Bar.

Module Box.

Inductive glyph : Type :=
  | TopLeft | TopRight | BottomLeft | BottomRight | Horizontal | Vertical.

(** One [mvprintw(row, column, glyph)]. *)
Definition write : Type := Z * Z * glyph.

Definition position (w : write) : Z * Z := fst w.

(** The writes of [draw_box] in the order they are made; the
    coordinates are [int]s, taken here without overflow. *)
Definition draw_box (y x height width : Z) : list write :=
  [ (y, x, TopLeft);
    (y, x + width - 1, TopRight);
    (y + height - 1, x, BottomLeft);
    (y + height - 1, x + width - 1, BottomRight) ]
  ++ (seqZ 1 (width - 2) ≫= fun i : Z =>
        [ (y, x + i, Horizontal); (y + height - 1, x + i, Horizontal) ])
  ++ (seqZ 1 (height - 2) ≫= fun i : Z =>
        [ (y + i, x, Vertical); (y + i, x + width - 1, Vertical) ]).

(** For the properties: a cell of the rectangle that is on its edge. *)
Definition on_border (y x height width : Z) (p : Z * Z) : Prop :=
  y <= fst p <= y + height - 1 /\ x <= snd p <= x + width - 1
  /\ (fst p = y \/ fst p = y + height - 1
      \/ snd p = x \/ snd p = x + width - 1).

End Box.

(** * Properties *)

(** ** Facts on the 64-bit arithmetic *)

Module U64Facts.
Import U64.

Lemma in_range_bounds z : in_range z -> 0 <= z < 2 ^ 64.
Proof. intros H. exact H. Qed.

Lemma wrap_range z : in_range (wrap z).
Proof. unfold in_range, wrap, modulus. apply Z.mod_pos_bound. lia. Qed.

Lemma wrap_small z : in_range z -> wrap z = z.
Proof. unfold in_range, wrap. intros H. apply Z.mod_small. exact H. Qed.


Lemma sub_range a b : in_range (sub a b).
Proof. apply wrap_range. Qed.

Lemma add_0_r a : in_range a -> add a 0 = a.
Proof. intros H. unfold add. rewrite Z.add_0_r. apply wrap_small, H. Qed.

Lemma sub_0_r a : in_range a -> sub a 0 = a.
Proof. intros H. unfold sub. rewrite Z.sub_0_r. apply wrap_small, H. Qed.

Lemma sub_no_borrow a b :
  in_range a -> in_range b -> b <= a -> sub a b = a - b.
Proof.
  unfold in_range. intros Ha Hb Hle. unfold sub. apply wrap_small.
  unfold in_range. lia.
Qed.

(** Two additions into the same accumulator can be swapped. *)
Lemma add_swap a x y : add (add a x) y = add (add a y) x.
Proof.
  unfold add, wrap.
  rewrite !Zplus_mod_idemp_l. f_equal. lia.
Qed.

End U64Facts.

(** ** Facts on the binary64 operations

    The primitive operations are specified by the functions of [SpecFloat]
    (the axioms of [FloatAxioms]).  The lemmas below follow these functions:
    first the rounding step, then the operations on numbers small enough
    for every step but the division to be exact, then the sign of the
    results on all 64-bit integers. *)

Module Binary64Facts.
Import Binary64.

(** Powers of two are positive. *)
Ltac pow2_pos e :=
  let H := fresh "Hpow" in
  assert (H : 0 < 2 ^ e) by (apply Z.pow_pos_nonneg; lia).

(** A goal [c = (a ?= b)] where linear arithmetic settles the order. *)
Ltac settle_compare :=
  symmetry;
  first [ apply Z.compare_eq_iff; lia
        | apply Z.compare_lt_iff; lia
        | apply Z.compare_gt_iff; lia ].

Lemma digits2_pos_bounds (p : positive) :
  2 ^ (Z.pos (digits2_pos p) - 1) <= Z.pos p < 2 ^ Z.pos (digits2_pos p).
Proof.
  induction p as [p IH | p IH |]; simpl digits2_pos.
  - rewrite Pos2Z.inj_succ.
    replace (Z.succ (Z.pos (digits2_pos p)) - 1) with (Z.pos (digits2_pos p) - 1 + 1) by lia.
    rewrite Z.pow_succ_r by lia. rewrite Z.pow_add_r by lia. lia.
  - rewrite Pos2Z.inj_succ.
    replace (Z.succ (Z.pos (digits2_pos p)) - 1) with (Z.pos (digits2_pos p) - 1 + 1) by lia.
    rewrite Z.pow_succ_r by lia. rewrite Z.pow_add_r by lia. lia.
  - simpl. lia.
Qed.

Lemma Zdigits2_bounds (m : Z) :
  0 < m -> 0 < Zdigits2 m /\ 2 ^ (Zdigits2 m - 1) <= m < 2 ^ Zdigits2 m.
Proof.
  destruct m as [| p | p]; try lia. intros _. simpl.
  split; [lia | apply digits2_pos_bounds].
Qed.

(** An upper bound by a power of two bounds the number of digits. *)
Lemma Zdigits2_le (m k : Z) : 0 <= k -> 0 <= m < 2 ^ k -> Zdigits2 m <= k.
Proof.
  intros Hk [Hm0 Hm]. destruct (Z.eq_dec m 0) as [-> | Hnz]; [simpl; lia |].
  destruct (Zdigits2_bounds m) as [Hd [Hlo _]]; [lia |].
  destruct (Z.le_gt_cases (Zdigits2 m) k) as [Hle | Hgt]; [exact Hle |].
  assert (2 ^ k <= 2 ^ (Zdigits2 m - 1)) by (apply Z.pow_le_mono_r; lia).
  lia.
Qed.

Lemma Zdigits2_ge (m k : Z) : 0 <= k -> 2 ^ k <= m -> k < Zdigits2 m.
Proof.
  intros Hk Hm.
  pow2_pos k.
  destruct (Zdigits2_bounds m) as [Hd [_ Hhi]]; [lia |].
  destruct (Z.lt_ge_cases k (Zdigits2 m)) as [Hlt | Hge]; [exact Hlt |].
  assert (2 ^ Zdigits2 m <= 2 ^ k) by (apply Z.pow_le_mono_r; lia).
  lia.
Qed.

Lemma Zdigits2_unique (m d : Z) :
  0 < d -> 2 ^ (d - 1) <= m < 2 ^ d -> Zdigits2 m = d.
Proof.
  intros Hd [Hlo Hhi].
  assert (Zdigits2 m <= d) by (apply Zdigits2_le; try lia;
    assert (0 < 2 ^ (d - 1)) by (apply Z.pow_pos_nonneg; lia); lia).
  assert (d - 1 < Zdigits2 m) by (apply Zdigits2_ge; lia).
  lia.
Qed.

(** One right shift keeps the position, the denominator doubling. *)
Lemma shr_1_inb (mrs : shr_record) (N D : Z) :
  0 < D -> inb mrs N D -> inb (shr_1 mrs) N (2 * D).
Proof.
  intros HD. destruct mrs as [m r s]. unfold inb, loc_of. simpl shr_m.
  intros (Hm & HN & Hl). simpl loc_of_shr_record in Hl.
  destruct (Z.eqb_spec N (m * D)) as [He | Hne].
  - (* the fraction is [m]: both bits are clear *)
    assert (r = false /\ s = false) as [-> ->]
      by (destruct r, s; simpl in Hl; try discriminate; auto).
    destruct m as [| [p | p |] |]; simpl; try lia;
      (split; [lia |]); (split; [lia |]);
      match goal with
      | |- _ = (if ?a =? ?b then _ else _) => destruct (Z.eqb_spec a b)
      end;
      first [reflexivity | lia | f_equal; settle_compare].
  - (* the fraction is above [m]: the sticky bit gets set *)
    assert (Hrs : r || s = true)
      by (destruct r, s; simpl in Hl; try discriminate; auto).
    destruct m as [| [p | p |] |]; simpl; rewrite ?Hrs; simpl; try lia;
      (split; [lia |]); (split; [lia |]);
      match goal with
      | |- _ = (if ?a =? ?b then _ else _) => destruct (Z.eqb_spec a b)
      end;
      first [lia | f_equal; settle_compare].
Qed.

Lemma pow2_double (k : Z) : 0 <= k -> 2 ^ (2 * k) = 2 ^ k * 2 ^ k.
Proof.
  intros Hk. replace (2 * k) with (k + k) by lia. apply Z.pow_add_r; lia.
Qed.

Lemma iter_shr_1_inb (p : positive) :
  forall (mrs : shr_record) (N D : Z),
    0 < D -> inb mrs N D ->
    inb (SpecFloat.iter_pos shr_1 p mrs) N (2 ^ Z.pos p * D).
Proof.
  induction p as [p IH | p IH |]; intros mrs N D HD Hin;
    simpl SpecFloat.iter_pos.
  - assert (H2 : 0 < 2 ^ Z.pos p) by (apply Z.pow_pos_nonneg; lia).
    replace (2 ^ Z.pos p~1 * D) with (2 ^ Z.pos p * (2 ^ Z.pos p * (2 * D))).
    + apply IH; [nia |]. apply IH; [lia |]. apply shr_1_inb; assumption.
    + rewrite (Pos2Z.inj_xI p), Z.pow_add_r, pow2_double by lia.
      change (2 ^ 1) with 2. ring.
  - assert (H2 : 0 < 2 ^ Z.pos p) by (apply Z.pow_pos_nonneg; lia).
    replace (2 ^ Z.pos p~0 * D) with (2 ^ Z.pos p * (2 ^ Z.pos p * D)).
    + apply IH; [nia |]. apply IH; assumption.
    + rewrite (Pos2Z.inj_xO p), pow2_double by lia. ring.
  - change (2 ^ 1) with 2. apply shr_1_inb; assumption.
Qed.

Lemma shr_record_of_loc_inb (m N D : Z) :
  0 <= m -> m * D <= N < (m + 1) * D ->
  inb (shr_record_of_loc m (loc_of N D m)) N D.
Proof.
  intros Hm HN. unfold inb.
  assert (Hs : shr_m (shr_record_of_loc m (loc_of N D m)) = m)
    by (destruct (loc_of N D m) as [| []]; reflexivity).
  rewrite Hs. repeat split; try lia.
  destruct (loc_of N D m) as [| []]; reflexivity.
Qed.

Lemma fexp64_eq (e : Z) : fexp64 e = Z.max (e - 53) (-1074).
Proof. reflexivity. Qed.

(** The first step of rounding: the mantissa is cut down to the precision
    and the position of the fraction is kept. *)
Lemma shr_fexp_inb (m e N D : Z) :
  0 <= m -> 0 < D -> m * D <= N < (m + 1) * D ->
  let n := Z.max 0 (fexp64 (Zdigits2 m + e) - e) in
  inb (fst (shr_fexp prec emax m e (loc_of N D m))) N (2 ^ n * D)
  /\ snd (shr_fexp prec emax m e (loc_of N D m)) = e + n.
Proof.
  intros Hm HD HN n. unfold shr_fexp, shr. fold fexp64.
  pose proof (shr_record_of_loc_inb m N D Hm HN) as Hin.
  destruct (fexp64 (Zdigits2 m + e) - e) as [| p | p] eqn:Hn; subst n; simpl fst; simpl snd.
  - change (Z.max 0 0) with 0. change (2 ^ 0) with 1.
    rewrite Z.mul_1_l, Z.add_0_r. split; [exact Hin | reflexivity].
  - rewrite Z.max_r by lia. split; [| reflexivity].
    apply iter_shr_1_inb; assumption.
  - rewrite Z.max_l by lia. change (2 ^ 0) with 1.
    rewrite Z.mul_1_l, Z.add_0_r. split; [exact Hin | reflexivity].
Qed.

Lemma round_nearest_even_range (m : Z) (l : location) :
  m <= round_nearest_even m l <= m + 1.
Proof.
  destruct l as [| []]; simpl; try lia. destruct (Z.even m); lia.
Qed.

(** Rounding to nearest even, in three cases: the rounded mantissa is zero,
    fits the precision, or has reached [2^53] and is renormalised. *)
Lemma binary_round_aux_cases (mx ex N D : Z) :
  0 <= mx -> 0 < D -> mx * D <= N < (mx + 1) * D ->
  let n := Z.max 0 (fexp64 (Zdigits2 mx + ex) - ex) in
  let e1 := ex + n in
  let D1 := 2 ^ n * D in
  exists m1 : Z,
    0 <= m1 < 2 ^ 53
    /\ m1 * D1 <= N < (m1 + 1) * D1
    /\ binary_round_aux prec emax false mx ex (loc_of N D mx)
       = let m' := round_nearest_even m1 (loc_of N D1 m1) in
         if m' =? 0 then S754_zero false
         else if m' <? 2 ^ 53 then finite_or_inf m' e1
              else finite_or_inf (2 ^ 52) (e1 + 1).
Proof.
  intros Hmx HD HN n e1 D1.
  destruct (shr_fexp_inb mx ex N D Hmx HD HN) as [Hin He]. fold n in Hin, He.
  fold D1 in Hin. fold e1 in He.
  unfold binary_round_aux.
  destruct (shr_fexp prec emax mx ex (loc_of N D mx)) as [mrs1 e1'].
  simpl fst in Hin. simpl snd in He. subst e1'.
  destruct Hin as (Hm1 & HN1 & Hl1).
  set (m1 := shr_m mrs1) in *.
  assert (Hn0 : 0 <= n) by (unfold n; lia).
  assert (H2n : 0 < 2 ^ n) by (apply Z.pow_pos_nonneg; lia).
  assert (Hdig : Zdigits2 mx <= 53 + n)
    by (unfold n; rewrite fexp64_eq; lia).
  assert (Hm1hi : m1 < 2 ^ 53).
  { destruct (Z.eq_dec mx 0) as [-> | Hnz].
    - assert (m1 * D1 < 1 * D) by lia. unfold D1 in *. 
      assert (m1 = 0) by nia. lia.
    - destruct (Zdigits2_bounds mx) as [_ [_ Hhi]]; [lia |].
      assert (2 ^ Zdigits2 mx <= 2 ^ (53 + n))
        by (apply Z.pow_le_mono_r; lia).
      rewrite Z.pow_add_r in H by lia.
      assert (m1 * 2 ^ n <= mx) by (unfold D1 in HN1; nia).
      nia. }
  exists m1. split; [lia |]. split; [exact HN1 |].
  rewrite Hl1.
  set (m' := round_nearest_even m1 (loc_of N D1 m1)).
  pose proof (round_nearest_even_range m1 (loc_of N D1 m1)) as Hr. fold m' in Hr.
  assert (He1 : -1074 <= e1) by (unfold e1, n; rewrite fexp64_eq; lia).
  cbv zeta.
  unfold shr_fexp, shr. fold fexp64. simpl shr_record_of_loc.
  destruct (Z.ltb_spec m' (2 ^ 53)) as [Hlt | Hge].
  - (* no renormalisation *)
    assert (Hd' : Zdigits2 m' <= 53) by (apply Zdigits2_le; lia).
    assert (Hn2 : fexp64 (Zdigits2 m' + e1) - e1 <= 0)
      by (rewrite fexp64_eq; lia).
    destruct (fexp64 (Zdigits2 m' + e1) - e1) as [| p | p] eqn:Hn2e; try lia.
    + simpl shr_m.
      destruct m' as [| p' | p'] eqn:Hm'; try lia; reflexivity.
    + simpl shr_m.
      destruct m' as [| p' | p'] eqn:Hm'; try lia; reflexivity.
  - (* the mantissa has reached 2^53 *)
    assert (Hm' : m' = 2 ^ 53) by lia.
    rewrite Hm'.
    replace (fexp64 (Zdigits2 (2 ^ 53) + e1) - e1) with 1
      by (change (Zdigits2 (2 ^ 53)) with 54; rewrite fexp64_eq; lia).
    reflexivity.
Qed.

(** A mantissa with [53 + k] digits whose [k] low bits are zero is rounded
    to itself. *)
Lemma binary_round_aux_exact (m0 e0 M E : Z) :
  2 ^ 52 <= M < 2 ^ 53 -> -1074 <= E <= 971 -> e0 <= E ->
  m0 = M * 2 ^ (E - e0) ->
  binary_round_aux prec emax false m0 e0 loc_Exact
  = S754_finite false (Z.to_pos M) E.
Proof.
  intros HM HE He0 Hm0.
  set (k := E - e0) in *.
  assert (Hk : 0 <= k) by (unfold k; lia).
  assert (H2k : 0 < 2 ^ k) by (apply Z.pow_pos_nonneg; lia).
  assert (Hdig : Zdigits2 m0 = 53 + k).
  { apply Zdigits2_unique; [lia |].
    replace (53 + k - 1) with (52 + k) by lia.
    rewrite !Z.pow_add_r by lia. nia. }
  assert (Hloc : loc_Exact = loc_of m0 1 m0)
    by (unfold loc_of; rewrite Z.mul_1_r, Z.eqb_refl; reflexivity).
  rewrite Hloc.
  destruct (binary_round_aux_cases m0 e0 m0 1) as (m1 & Hm1 & HN1 & Hres);
    [nia | lia | lia |].
  rewrite Hres. clear Hres.
  rewrite Hdig in HN1 |- *.
  replace (Z.max 0 (fexp64 (53 + k + e0) - e0)) with k in HN1 |- *
    by (rewrite fexp64_eq; unfold k; lia).
  rewrite Z.mul_1_r in HN1 |- *.
  assert (Hm1M : m1 = M) by nia. subst m1.
  cbv zeta.
  assert (HlocM : loc_of m0 (2 ^ k) M = loc_Exact)
    by (unfold loc_of; rewrite Hm0, Z.eqb_refl; reflexivity).
  rewrite HlocM. simpl round_nearest_even.
  destruct (Z.eqb_spec M 0) as [Hz | _]; [lia |].
  destruct (Z.ltb_spec M (2 ^ 53)) as [_ | Hge]; [| lia].
  unfold finite_or_inf. replace (e0 + k) with E by (unfold k; lia).
  destruct (Z.leb_spec E 971) as [_ | Hgt]; [reflexivity | lia].
Qed.

Lemma iter_xO_mul (p d : positive) :
  Z.pos (Pos.iter xO p d) = Z.pos p * 2 ^ Z.pos d.
Proof.
  induction d as [| d IH] using Pos.peano_ind.
  - simpl Pos.iter. rewrite (Pos2Z.inj_xO p). change (2 ^ 1) with 2. lia.
  - rewrite Pos.iter_succ, (Pos2Z.inj_xO (Pos.iter xO p d)), IH, Pos2Z.inj_succ.
    rewrite Z.pow_succ_r by lia. ring.
Qed.

Lemma mant_range (z : Z) : 0 < z < 2 ^ 53 -> 2 ^ 52 <= mant z < 2 ^ 53.
Proof.
  intros [Hz Hhi]. unfold mant.
  destruct (Zdigits2_bounds z Hz) as [Hd [Hlo Hup]].
  assert (Hle : Zdigits2 z <= 53) by (apply Zdigits2_le; lia).
  assert (H2 : 0 < 2 ^ (53 - Zdigits2 z)) by (apply Z.pow_pos_nonneg; lia).
  assert (H52 : 2 ^ 52 = 2 ^ (Zdigits2 z - 1) * 2 ^ (53 - Zdigits2 z))
    by (rewrite <- Z.pow_add_r by lia; f_equal; lia).
  assert (H53 : 2 ^ 53 = 2 ^ Zdigits2 z * 2 ^ (53 - Zdigits2 z))
    by (rewrite <- Z.pow_add_r by lia; f_equal; lia).
  rewrite H52, H53. split.
  - apply Z.mul_le_mono_nonneg_r; lia.
  - apply Z.mul_lt_mono_pos_r; lia.
Qed.

Lemma expo_range (z : Z) : 0 < z < 2 ^ 53 -> -52 <= expo z <= 0.
Proof.
  intros [Hz Hhi]. unfold expo.
  destruct (Zdigits2_bounds z Hz) as [Hd _].
  assert (Hle : Zdigits2 z <= 53) by (apply Zdigits2_le; lia). lia.
Qed.

Lemma binary_normalize_exact (z : Z) :
  0 < z < 2 ^ 53 ->
  binary_normalize prec emax z 0 false
  = S754_finite false (Z.to_pos (mant z)) (expo z).
Proof.
  intros Hz. pose proof (mant_range z Hz) as HM.
  pose proof (expo_range z Hz) as HE.
  destruct z as [| p | p]; try lia.
  unfold binary_normalize, binary_round, shl_align. fold fexp64.
  rewrite Z.add_0_r, Z.sub_0_r, fexp64_eq.
  change (Z.pos (digits2_pos p)) with (Zdigits2 (Z.pos p)).
  unfold expo in HE.
  rewrite Z.max_l by lia.
  destruct (Zdigits2 (Z.pos p) - 53) as [| d | d] eqn:Hd; try lia.
  - apply binary_round_aux_exact; try lia.
    + unfold expo. lia.
    + unfold expo. rewrite Hd. lia.
    + unfold mant, expo. rewrite Hd.
      replace (53 - Zdigits2 (Z.pos p)) with 0 by lia.
      rewrite Z.sub_diag. change (2 ^ 0) with 1. ring.
  - apply binary_round_aux_exact; try lia.
    + unfold expo. lia.
    + unfold expo. lia.
    + unfold expo. rewrite Hd, Z.sub_diag. rewrite iter_xO_mul.
      unfold mant. replace (53 - Zdigits2 (Z.pos p)) with (Z.pos d) by lia.
      change (2 ^ 0) with 1. ring.
Qed.

Lemma valid_binary_canonical (M E : Z) :
  2 ^ 52 <= M < 2 ^ 53 -> -1074 <= E <= 971 ->
  valid_binary (S754_finite false (Z.to_pos M) E) = true.
Proof.
  intros HM HE. unfold SpecFloat.valid_binary, bounded, canonical_mantissa.
  fold fexp64.
  change (Z.pos (digits2_pos (Z.to_pos M))) with (Zdigits2 (Z.pos (Z.to_pos M))).
  rewrite Z2Pos.id by lia.
  rewrite (Zdigits2_unique M 53) by lia.
  rewrite fexp64_eq. apply andb_true_intro. split.
  - apply Z.eqb_eq. lia.
  - apply Z.leb_le. change (emax - prec) with 971. lia.
Qed.

Lemma Zdigits2_mono (a b : Z) : 0 < a <= b -> Zdigits2 a <= Zdigits2 b.
Proof.
  intros [Ha Hab].
  destruct (Zdigits2_bounds b) as [Hd [_ Hhi]]; [lia |].
  apply Zdigits2_le; lia.
Qed.

(** Below [2^53] the conversion of an integer to [double] is exact. *)
Lemma to_double_exact (z : Z) :
  0 < z < 2 ^ 53 ->
  Prim2SF (U64.to_double z) = S754_finite false (Z.to_pos (mant z)) (expo z).
Proof.
  intros Hz. unfold U64.to_double. rewrite binary_normalize_exact by exact Hz.
  apply Prim2SF_SF2Prim. apply valid_binary_canonical.
  - apply mant_range, Hz.
  - pose proof (expo_range z Hz). lia.
Qed.

(** [100.0 * x] is exact as long as the product is below [2^53]. *)
Lemma mul_100_exact (x : Z) :
  0 < x -> 100 * x < 2 ^ 53 ->
  Prim2SF (PrimFloat.mul 100%float (U64.to_double x))
  = S754_finite false (Z.to_pos (mant (100 * x))) (expo (100 * x)).
Proof.
  intros Hx HX.
  assert (Hx53 : 0 < x < 2 ^ 53) by lia.
  assert (HX53 : 0 < 100 * x < 2 ^ 53) by lia.
  rewrite mul_spec, (to_double_exact x Hx53).
  replace (Prim2SF 100%float) with (S754_finite false 7036874417766400 (-46))
    by (vm_compute; reflexivity).
  unfold SF64mul, SFmul. simpl xorb.
  pose proof (mant_range x Hx53) as HMx.
  pose proof (mant_range (100 * x) HX53) as HMX.
  pose proof (expo_range x Hx53) as HEx.
  pose proof (expo_range (100 * x) HX53) as HEX.
  assert (Hmono : Zdigits2 x <= Zdigits2 (100 * x))
    by (apply Zdigits2_mono; lia).
  apply binary_round_aux_exact; try lia.
  - unfold expo in *. lia.
  - rewrite Pos2Z.inj_mul, Z2Pos.id by lia.
    unfold mant, expo in *.
    set (dx := Zdigits2 x) in *. set (dX := Zdigits2 (100 * x)) in *.
    replace (dX - 53 - (-46 + (dx - 53))) with (dX - dx + 46) by lia.
    rewrite <- Z.mul_assoc, <- Z.pow_add_r by lia.
    replace (53 - dX + (dX - dx + 46)) with (46 + (53 - dx)) by lia.
    rewrite Z.pow_add_r by lia.
    change (Z.pos 7036874417766400) with (100 * 2 ^ 46). ring.
Qed.

(** The location computed from the remainder of a division is the position
    of the quotient. *)
Lemma new_location_loc_of (D q r : Z) :
  0 < D -> 0 <= r < D -> new_location D r = loc_of (q * D + r) D q.
Proof.
  intros HD Hr. unfold new_location, loc_of.
  destruct (Z.even D) eqn:Hev;
    unfold new_location_even, new_location_odd;
    destruct (Z.eqb_spec r 0) as [Hr0 | Hr0];
    destruct (Z.eqb_spec (q * D + r) (q * D)) as [He | He];
    try lia; try reflexivity; f_equal.
  - (* even divisor: the remainder is compared with its half *)
    destruct (Z.compare_spec (2 * r) D); settle_compare.
  - (* odd divisor: twice the remainder is never the divisor *)
    assert (Hodd : 2 * r <> D).
    { intros <-. rewrite Z.even_mul in Hev. discriminate Hev. }
    destruct (Z.compare_spec (2 * r + 1) D); settle_compare.
Qed.

Lemma SFdiv_core_binary_normal (ma ea mb eb : Z) :
  2 ^ 52 <= ma < 2 ^ 53 -> 2 ^ 52 <= mb < 2 ^ 53 ->
  -52 <= ea <= 2 -> -52 <= eb <= 0 ->
  SFdiv_core_binary prec emax ma ea mb eb
  = (ma * 2 ^ 53 / mb, ea - eb - 53,
     loc_of (ma * 2 ^ 53) mb (ma * 2 ^ 53 / mb)).
Proof.
  intros Hma Hmb Hea Heb. unfold SFdiv_core_binary. fold fexp64.
  rewrite (Zdigits2_unique ma 53), (Zdigits2_unique mb 53) by lia.
  rewrite fexp64_eq.
  replace (Z.min (Z.max (53 + ea - (53 + eb) - 53) (-1074)) (ea - eb))
    with (ea - eb - 53) by lia.
  replace (ea - eb - (ea - eb - 53)) with 53 by lia.
  rewrite Z.shiftl_mul_pow2 by lia.
  pose proof (Z_div_mod (ma * 2 ^ 53) mb) as Hdm.
  unfold Z.div. destruct (Z.div_eucl (ma * 2 ^ 53) mb) as [q r].
  destruct Hdm as [Heq Hr]; [lia |].
  rewrite (new_location_loc_of mb q r) by lia.
  do 2 f_equal. lia.
Qed.

Lemma SFleb_zero_finite (m : positive) (e : Z) :
  SFleb (S754_zero false) (S754_finite false m e) = true.
Proof. reflexivity. Qed.

Lemma SFleb_finite (m M : positive) (e E : Z) :
  e < E \/ (e = E /\ Z.pos m <= Z.pos M) ->
  SFleb (S754_finite false m e) (S754_finite false M E) = true.
Proof.
  intros H. unfold SFleb, SFcompare.
  destruct H as [Hlt | [-> Hle]].
  - apply Z.compare_lt_iff in Hlt. rewrite Hlt. reflexivity.
  - rewrite Z.compare_refl.
    change (Pos.compare_cont Eq m M) with (Pos.compare m M).
    rewrite Pos2Z.inj_compare.
    destruct (Z.compare_spec (Z.pos m) (Z.pos M)); try reflexivity. lia.
Qed.

(** A quotient of two normal numbers whose exact value is at most 100 is
    rounded to a number between 0 and 100.  The values are compared after
    scaling by [2^52], which makes them integers. *)
Lemma SFdiv_le_hundred (ma mb : positive) (ea eb : Z) :
  2 ^ 52 <= Z.pos ma < 2 ^ 53 -> 2 ^ 52 <= Z.pos mb < 2 ^ 53 ->
  -52 <= ea <= 2 -> -52 <= eb <= 0 ->
  Z.pos ma * 2 ^ (ea + 52) <= 100 * (Z.pos mb * 2 ^ (eb + 52)) ->
  let r := SFdiv prec emax (S754_finite false ma ea) (S754_finite false mb eb) in
  SFleb (S754_zero false) r = true /\ SFleb r hundred = true.
Proof.
  intros Hma Hmb Hea Heb Hle r. subst r. unfold SFdiv.
  rewrite SFdiv_core_binary_normal by assumption.
  simpl xorb.
  set (N := Z.pos ma * 2 ^ 53). set (D := Z.pos mb).
  set (q := N / D). set (e' := ea - eb - 53).
  assert (HD : 0 < D) by (unfold D; lia).
  assert (Hq : q * D <= N < (q + 1) * D).
  { unfold q. pose proof (Z.mul_div_le N D HD).
    pose proof (Z.mul_succ_div_gt N D HD). lia. }
  assert (Hq52 : 2 ^ 52 <= q).
  { unfold q. apply Z.div_le_lower_bound; [lia |]. unfold N, D.
    change (2 ^ 53) with 9007199254740992 in *.
    change (2 ^ 52) with 4503599627370496 in *. nia. }
  pow2_pos (ea + 52). pow2_pos (eb + 52).
  (* the exponents are at most 7 apart, the quotient being below 128 *)
  assert (Hgap : ea - eb <= 7).
  { destruct (Z.le_gt_cases (ea - eb) 7) as [Hok | Hfar]; [exact Hok |].
    assert (Hpw : 2 ^ (eb + 52 + 8) <= 2 ^ (ea + 52))
      by (apply Z.pow_le_mono_r; lia).
    rewrite Z.pow_add_r in Hpw by lia. change (2 ^ 8) with 256 in Hpw.
    change (2 ^ 53) with 9007199254740992 in *.
    change (2 ^ 52) with 4503599627370496 in *. nia. }
  set (T := 2 ^ (- e')).
  assert (HT : 0 < T) by (apply Z.pow_pos_nonneg; unfold e'; lia).
  assert (HNT : N <= 100 * D * T).
  { assert (Hp : 2 ^ 53 * 2 ^ (eb + 52) = T * 2 ^ (ea + 52)).
    { unfold T, e'. rewrite <- !Z.pow_add_r by lia. f_equal. lia. }
    unfold N, D.
    apply (Z.mul_le_mono_pos_r _ _ (2 ^ (ea + 52))); [lia |].
    replace (100 * Z.pos mb * T * 2 ^ (ea + 52))
      with (100 * (Z.pos mb * 2 ^ (eb + 52)) * 2 ^ 53)
      by (rewrite <- !Z.mul_assoc; rewrite <- Hp; ring).
    replace (Z.pos ma * 2 ^ 53 * 2 ^ (ea + 52))
      with (Z.pos ma * 2 ^ (ea + 52) * 2 ^ 53) by ring.
    apply Z.mul_le_mono_nonneg_r; lia. }
  assert (HqT : q <= 100 * T) by nia.
  assert (Hdq : 52 < Zdigits2 q) by (apply Zdigits2_ge; lia).
  assert (Hdq' : Zdigits2 q <= 7 - e').
  { apply Zdigits2_le; [unfold e'; lia |]. split; [lia |].
    replace (7 - e') with (7 + - e') by lia.
    rewrite Z.pow_add_r by (unfold e'; lia). fold T.
    change (2 ^ 7) with 128. lia. }
  destruct (binary_round_aux_cases q e' N D) as (m1 & Hm1 & HN1 & Hres);
    [lia | exact HD | exact Hq |].
  rewrite Hres. clear Hres.
  replace (Z.max 0 (fexp64 (Zdigits2 q + e') - e')) with (Zdigits2 q - 53)
    in HN1 |- * by (rewrite fexp64_eq; unfold e'; lia).
  set (n := Zdigits2 q - 53) in *.
  set (e1 := e' + n).
  assert (He1 : e1 <= -46) by (unfold e1, n; lia).
  assert (H2n : 0 < 2 ^ n) by (apply Z.pow_pos_nonneg; unfold n; lia).
  set (D1 := 2 ^ n * D) in *.
  cbv zeta.
  set (m' := round_nearest_even m1 (loc_of N D1 m1)).
  pose proof (round_nearest_even_range m1 (loc_of N D1 m1)) as Hr. fold m' in Hr.
  (* at the exponent of 100 the mantissa is at most that of 100 *)
  assert (Htop : e1 = -46 -> m' <= 7036874417766400).
  { intros He.
    assert (HTn : 100 * T = 7036874417766400 * 2 ^ n).
    { unfold T. replace (- e') with (46 + n) by (unfold e1 in He; lia).
      rewrite Z.pow_add_r by (unfold n; lia).
      change (2 ^ 46) with 70368744177664. ring. }
    assert (Hm1le : m1 <= 7036874417766400) by (unfold D1 in HN1; nia).
    destruct (Z.eq_dec m1 7036874417766400) as [Heq | Hne]; [| lia].
    assert (HNe : N = m1 * D1) by (unfold D1 in *; nia).
    unfold m', loc_of. rewrite HNe, Z.eqb_refl. simpl. lia. }
  destruct (Z.eqb_spec m' 0) as [Hz | Hnz]; [split; reflexivity |].
  destruct (Z.ltb_spec m' (2 ^ 53)) as [Hlt | Hge].
  - unfold finite_or_inf.
    destruct (Z.leb_spec e1 971) as [_ | Hgt]; [| lia].
    split; [apply SFleb_zero_finite |].
    apply SFleb_finite. rewrite Z2Pos.id by lia.
    destruct (Z.eq_dec e1 (-46)) as [He | He]; [right | left; lia].
    split; [exact He | apply Htop, He].
  - unfold finite_or_inf.
    assert (He1' : e1 < -46).
    { destruct (Z.eq_dec e1 (-46)) as [He | He]; [| lia].
      apply Htop in He. change (2 ^ 53) with 9007199254740992 in Hge. lia. }
    destruct (Z.leb_spec (e1 + 1) 971) as [_ | Hgt]; [| lia].
    split; [apply SFleb_zero_finite |].
    apply SFleb_finite.
    destruct (Z.eq_dec (e1 + 1) (-46)) as [He | He]; [right | left; lia].
    split; [exact He |]. vm_compute. discriminate.
Qed.

Lemma mant_expo (z : Z) : mant z = z * 2 ^ (- expo z).
Proof. unfold mant, expo. do 2 f_equal. lia. Qed.

(** The value of a canonical pair, scaled by [2^52]. *)
Lemma mant_scaled (z : Z) :
  0 < z < 2 ^ 53 -> mant z * 2 ^ (expo z + 52) = z * 2 ^ 52.
Proof.
  intros Hz. pose proof (expo_range z Hz) as HE.
  rewrite mant_expo, <- Z.mul_assoc, <- Z.pow_add_r by lia.
  do 2 f_equal. lia.
Qed.

(** [100.0 * x] is still exact up to [2^55]: the product is a multiple
    of 4, and two more bits than the precision are enough. *)
Lemma mul_100_exact_wide (x : Z) :
  0 < x -> 2 ^ 53 <= 100 * x < 2 ^ 55 ->
  exists M E : Z,
    2 ^ 52 <= M < 2 ^ 53 /\ 1 <= E <= 2
    /\ M * 2 ^ E = 100 * x
    /\ Prim2SF (PrimFloat.mul 100%float (U64.to_double x))
       = S754_finite false (Z.to_pos M) E.
Proof.
  intros Hx HX.
  assert (Hx53 : 0 < x < 2 ^ 53)
    by (change (2 ^ 55) with 36028797018963968 in HX;
        change (2 ^ 53) with 9007199254740992; lia).
  pose proof (mant_range x Hx53) as HMx.
  pose proof (expo_range x Hx53) as HEx.
  set (E := Zdigits2 (100 * x) - 53).
  assert (HdX : 53 < Zdigits2 (100 * x) <= 55)
    by (split; [apply Zdigits2_ge | apply Zdigits2_le]; lia).
  destruct (Zdigits2_bounds (100 * x)) as [_ [Hlo Hhi]]; [lia |].
  assert (HE : 1 <= E <= 2) by (unfold E; lia).
  (* 100 * x = 4 * (25 * x) is a multiple of 2^E *)
  assert (Hdiv : exists M, 100 * x = M * 2 ^ E).
  { destruct (Z.eq_dec E 1) as [-> | HE1].
    - exists (50 * x). change (2 ^ 1) with 2. ring.
    - replace E with 2 by lia. exists (25 * x). change (2 ^ 2) with 4. ring. }
  destruct Hdiv as [M HM].
  pow2_pos E.
  assert (HMr : 2 ^ 52 <= M < 2 ^ 53).
  { replace (Zdigits2 (100 * x) - 1) with (52 + E) in Hlo by (unfold E; lia).
    replace (Zdigits2 (100 * x)) with (53 + E) in Hhi by (unfold E; lia).
    rewrite Z.pow_add_r in Hlo, Hhi by lia. nia. }
  exists M, E. split; [exact HMr |]. split; [exact HE |].
  split; [symmetry; exact HM |].
  rewrite mul_spec, (to_double_exact x Hx53).
  replace (Prim2SF 100%float) with hundred by (vm_compute; reflexivity).
  unfold SF64mul, SFmul, hundred. simpl xorb.
  apply binary_round_aux_exact; try lia.
  rewrite Pos2Z.inj_mul, Z2Pos.id by lia.
  (* both sides are [100 * x * 2^(46 - expo x)] *)
  rewrite mant_expo.
  replace (E - (-46 + expo x)) with (E + (46 + - expo x)) by lia.
  replace (M * 2 ^ (E + (46 + - expo x)))
    with (M * 2 ^ E * (2 ^ 46 * 2 ^ (- expo x)))
    by (rewrite !Z.pow_add_r by lia; ring).
  rewrite <- HM.
  change (Z.pos 7036874417766400) with (100 * 2 ^ 46). ring.
Qed.

(** The quotient the source computes, for integers small enough that the
    conversions and the product by 100.0 are exact. *)
Lemma percent_in_range (x y : Z) :
  0 <= x <= y -> 0 < y -> 100 * y <= 2 ^ 55 ->
  let u := PrimFloat.div (PrimFloat.mul 100%float (U64.to_double x))
                         (U64.to_double y) in
  PrimFloat.leb 0%float u = true /\ PrimFloat.leb u 100%float = true.
Proof.
  intros Hx Hy Hy55 u. subst u.
  assert (Hy' : 0 < y < 2 ^ 53)
    by (change (2 ^ 55) with 36028797018963968 in Hy55;
        change (2 ^ 53) with 9007199254740992; lia).
  pose proof (mant_range y Hy') as HMy. pose proof (expo_range y Hy') as HEy.
  rewrite !leb_spec, div_spec, (to_double_exact y Hy').
  replace (Prim2SF 0%float) with (S754_zero false) by (vm_compute; reflexivity).
  replace (Prim2SF 100%float) with hundred by (vm_compute; reflexivity).
  destruct (Z.eq_dec x 0) as [-> | Hnz].
  - replace (Prim2SF (PrimFloat.mul 100%float (U64.to_double 0)))
      with (S754_zero false) by (vm_compute; reflexivity).
    split; reflexivity.
  - destruct (Z.lt_ge_cases (100 * x) (2 ^ 53)) as [Hsmall | Hwide].
    + (* the product has at most 53 digits *)
      assert (HX : 0 < 100 * x < 2 ^ 53) by lia.
      pose proof (mant_range (100 * x) HX) as HMX.
      pose proof (expo_range (100 * x) HX) as HEX.
      rewrite mul_100_exact by lia.
      apply SFdiv_le_hundred; rewrite ?Z2Pos.id by lia; try lia.
      rewrite (mant_scaled (100 * x) HX), (mant_scaled y Hy'). lia.
    + (* the product has 54 or 55 digits *)
      assert (HX : 2 ^ 53 <= 100 * x < 2 ^ 55)
        by (change (2 ^ 55) with 36028797018963968 in *; lia).
      destruct (mul_100_exact_wide x ltac:(lia) HX)
        as (M & E & HM & HE & HME & ->).
      apply SFdiv_le_hundred; rewrite ?Z2Pos.id by lia; try lia.
      rewrite (mant_scaled y Hy').
      rewrite Z.pow_add_r, Z.mul_assoc, HME by lia. lia.
Qed.

Lemma loc_of_surj (l : location) (m : Z) :
  exists N D : Z, 0 < D /\ m * D <= N < (m + 1) * D /\ l = loc_of N D m.
Proof.
  destruct l as [| []].
  - exists m, 1. unfold loc_of. rewrite Z.mul_1_r, Z.eqb_refl.
    repeat split; lia.
  - exists (2 * m + 1), 2. unfold loc_of.
    destruct (Z.eqb_spec (2 * m + 1) (m * 2)) as [He | _]; [lia |].
    repeat split; try lia. f_equal. settle_compare.
  - exists (4 * m + 1), 4. unfold loc_of.
    destruct (Z.eqb_spec (4 * m + 1) (m * 4)) as [He | _]; [lia |].
    repeat split; try lia. f_equal. settle_compare.
  - exists (4 * m + 3), 4. unfold loc_of.
    destruct (Z.eqb_spec (4 * m + 3) (m * 4)) as [He | _]; [lia |].
    repeat split; try lia. f_equal. settle_compare.
Qed.

Lemma finite_or_inf_nonneg (m e : Z) : nonneg_sf (finite_or_inf m e) = true.
Proof. unfold finite_or_inf. destruct (e <=? 971); reflexivity. Qed.

(** Rounding a mantissa that is not negative, with the sign bit clear,
    never gives a negative number nor a NaN. *)
Lemma binary_round_aux_nonneg (mx ex : Z) (lx : location) :
  0 <= mx -> nonneg_sf (binary_round_aux prec emax false mx ex lx) = true.
Proof.
  intros Hmx. destruct (loc_of_surj lx mx) as (N & D & HD & HN & ->).
  destruct (binary_round_aux_cases mx ex N D Hmx HD HN) as (m1 & _ & _ & ->).
  cbv zeta.
  destruct (_ =? 0); [reflexivity |].
  destruct (_ <? 2 ^ 53); apply finite_or_inf_nonneg.
Qed.

Lemma SFmul_nonneg_l (ma : positive) (ea : Z) (b : spec_float) :
  nonneg_sf b = true ->
  nonneg_sf (SFmul prec emax (S754_finite false ma ea) b) = true.
Proof.
  intros Hb.
  destruct b as [[] | [] | | [] mb eb]; try discriminate Hb; try reflexivity.
  unfold SFmul. simpl xorb. apply binary_round_aux_nonneg. lia.
Qed.

Lemma SFmul_nonneg_r (a : spec_float) (mb : positive) (eb : Z) :
  nonneg_sf a = true ->
  nonneg_sf (SFmul prec emax a (S754_finite false mb eb)) = true.
Proof.
  intros Ha.
  destruct a as [[] | [] | | [] ma ea]; try discriminate Ha; try reflexivity.
  unfold SFmul. simpl xorb. apply binary_round_aux_nonneg. lia.
Qed.

Lemma SFdiv_nonneg (a : spec_float) (mb : positive) (eb : Z) :
  nonneg_sf a = true ->
  nonneg_sf (SFdiv prec emax a (S754_finite false mb eb)) = true.
Proof.
  intros Ha.
  destruct a as [[] | [] | | [] ma ea]; try discriminate Ha; try reflexivity.
  unfold SFdiv, SFdiv_core_binary. simpl xorb.
  set (m' := match _ - _ - _ with Z0 => _ | Z.pos _ => _ | Z.neg _ => _ end).
  assert (Hm' : 0 <= m').
  { unfold m'. destruct (_ - _ - _) eqn:Hs; try lia.
    rewrite Z.shiftl_mul_pow2 by lia.
    assert (0 < 2 ^ Z.pos p) by (apply Z.pow_pos_nonneg; lia). lia. }
  pose proof (Z_div_mod m' (Z.pos mb)) as Hdm.
  destruct (Z.div_eucl m' (Z.pos mb)) as [q r].
  destruct Hdm as [Heq Hr]; [lia |].
  apply binary_round_aux_nonneg. nia.
Qed.

(** The conversion of a positive 64-bit integer is a positive normal
    number. *)
Lemma binary_normalize_shape (z : Z) :
  0 < z < 2 ^ 64 ->
  exists M E : Z,
    2 ^ 52 <= M < 2 ^ 53 /\ -52 <= E <= 12
    /\ binary_normalize prec emax z 0 false
       = S754_finite false (Z.to_pos M) E.
Proof.
  intros Hz.
  destruct (Z.lt_ge_cases z (2 ^ 53)) as [Hsmall | Hbig].
  - exists (mant z), (expo z).
    assert (Hz' : 0 < z < 2 ^ 53) by lia.
    pose proof (expo_range z Hz').
    split; [apply mant_range, Hz' |]. split; [lia |].
    apply binary_normalize_exact, Hz'.
  - assert (Hd : 53 < Zdigits2 z) by (apply Zdigits2_ge; lia).
    assert (Hd' : Zdigits2 z <= 64) by (apply Zdigits2_le; lia).
    destruct (Zdigits2_bounds z) as [_ [Hlo Hhi]]; [lia |].
    destruct z as [| p | p]; try lia.
    unfold binary_normalize, binary_round, shl_align. fold fexp64.
    rewrite Z.add_0_r, Z.sub_0_r, fexp64_eq.
    change (Z.pos (digits2_pos p)) with (Zdigits2 (Z.pos p)).
    rewrite Z.max_l by lia.
    destruct (Zdigits2 (Z.pos p) - 53) as [| d | d] eqn:Hdd; try lia.
    assert (Hloc : loc_Exact = loc_of (Z.pos p) 1 (Z.pos p))
      by (unfold loc_of; rewrite Z.mul_1_r, Z.eqb_refl; reflexivity).
    rewrite Hloc.
    destruct (binary_round_aux_cases (Z.pos p) 0 (Z.pos p) 1)
      as (m1 & Hm1 & HN1 & ->); [lia | lia | lia |].
    replace (Z.max 0 (fexp64 (Zdigits2 (Z.pos p) + 0) - 0)) with (Z.pos d)
      in HN1 |- * by (rewrite fexp64_eq; lia).
    rewrite Z.mul_1_r in HN1 |- *.
    assert (H2d : 0 < 2 ^ Z.pos d) by (apply Z.pow_pos_nonneg; lia).
    assert (Hm1lo : 2 ^ 52 <= m1).
    { replace (Zdigits2 (Z.pos p) - 1) with (52 + Z.pos d) in Hlo by lia.
      rewrite Z.pow_add_r in Hlo by lia. nia. }
    cbv zeta.
    set (m' := round_nearest_even m1 (loc_of (Z.pos p) (2 ^ Z.pos d) m1)).
    pose proof (round_nearest_even_range m1 (loc_of (Z.pos p) (2 ^ Z.pos d) m1))
      as Hr. fold m' in Hr.
    destruct (Z.eqb_spec m' 0) as [Hz0 | _]; [lia |].
    unfold finite_or_inf.
    destruct (Z.ltb_spec m' (2 ^ 53)) as [Hlt | Hge].
    + exists m', (0 + Z.pos d). split; [lia |]. split; [lia |].
      destruct (Z.leb_spec (0 + Z.pos d) 971); [reflexivity | lia].
    + exists (2 ^ 52), (0 + Z.pos d + 1). split; [lia |]. split; [lia |].
      destruct (Z.leb_spec (0 + Z.pos d + 1) 971); [reflexivity | lia].
Qed.

Lemma to_double_nonneg (z : Z) :
  0 <= z < 2 ^ 64 -> nonneg_sf (Prim2SF (U64.to_double z)) = true.
Proof.
  intros Hz. destruct (Z.eq_dec z 0) as [-> | Hnz].
  - vm_compute. reflexivity.
  - destruct (binary_normalize_shape z) as (M & E & HM & HE & Heq); [lia |].
    unfold U64.to_double. rewrite Heq.
    rewrite Prim2SF_SF2Prim by (apply valid_binary_canonical; lia).
    reflexivity.
Qed.

Lemma to_double_positive (z : Z) :
  0 < z < 2 ^ 64 ->
  exists (m : positive) (e : Z), Prim2SF (U64.to_double z) = S754_finite false m e.
Proof.
  intros Hz.
  destruct (binary_normalize_shape z Hz) as (M & E & HM & HE & Heq).
  exists (Z.to_pos M), E. unfold U64.to_double. rewrite Heq.
  apply Prim2SF_SF2Prim, valid_binary_canonical; lia.
Qed.

(** Numbers that are not negative: at least 0.0, and different from -1.0. *)
Lemma nonneg_sf_leb (u : float) :
  nonneg_sf (Prim2SF u) = true -> PrimFloat.leb 0%float u = true.
Proof.
  intros H. rewrite leb_spec.
  replace (Prim2SF 0%float) with (S754_zero false) by (vm_compute; reflexivity).
  destruct (Prim2SF u) as [[] | [] | | [] m e]; try discriminate H; reflexivity.
Qed.

Lemma nonneg_sf_not_minus_one (u : float) :
  nonneg_sf (Prim2SF u) = true -> u <> (-1)%float.
Proof.
  intros H ->. vm_compute in H. discriminate H.
Qed.

(** [(100.0 * x) / y] and [(x * 100.0) / y] for 64-bit integers [x] and
    [y], [y] not zero. *)
Lemma percent_nonneg (x y : Z) :
  0 <= x < 2 ^ 64 -> 0 < y < 2 ^ 64 ->
  nonneg_sf (Prim2SF (PrimFloat.div (PrimFloat.mul 100%float (U64.to_double x))
                                    (U64.to_double y))) = true
  /\ nonneg_sf (Prim2SF (PrimFloat.div (PrimFloat.mul (U64.to_double x) 100%float)
                                       (U64.to_double y))) = true.
Proof.
  intros Hx Hy.
  destruct (to_double_positive y Hy) as (my & ey & Hyf).
  pose proof (to_double_nonneg x Hx) as Hxf.
  rewrite !div_spec, !mul_spec, Hyf.
  replace (Prim2SF 100%float) with hundred by (vm_compute; reflexivity).
  unfold SF64div, SF64mul, hundred.
  split; apply SFdiv_nonneg.
  - apply SFmul_nonneg_l, Hxf.
  - apply SFmul_nonneg_r, Hxf.
Qed.

(** When the quotient is an integer, the division returns it. *)
Lemma percent_exact (x y k : Z) :
  0 <= x <= y -> 0 < y -> 100 * y < 2 ^ 53 -> 100 * x = k * y ->
  PrimFloat.div (PrimFloat.mul 100%float (U64.to_double x)) (U64.to_double y)
  = U64.to_double k.
Proof.
  intros Hx Hy Hy53 Hk.
  assert (Hy' : 0 < y < 2 ^ 53) by lia.
  apply Prim2SF_inj.
  rewrite div_spec, (to_double_exact y Hy').
  destruct (Z.eq_dec x 0) as [-> | Hnz].
  - assert (k = 0) by nia. subst k.
    replace (Prim2SF (PrimFloat.mul 100%float (U64.to_double 0)))
      with (S754_zero false) by (vm_compute; reflexivity).
    replace (Prim2SF (U64.to_double 0)) with (S754_zero false)
      by (vm_compute; reflexivity).
    reflexivity.
  - assert (HX : 0 < 100 * x < 2 ^ 53) by lia.
    assert (Hk100 : 0 < k <= 100) by nia.
    assert (Hk' : 0 < k < 2 ^ 53) by (change (2 ^ 53) with 9007199254740992; lia).
    pose proof (mant_range y Hy') as HMy. pose proof (expo_range y Hy') as HEy.
    pose proof (mant_range (100 * x) HX) as HMX.
    pose proof (expo_range (100 * x) HX) as HEX.
    pose proof (mant_range k Hk') as HMk. pose proof (expo_range k Hk') as HEk.
    rewrite mul_100_exact by lia. rewrite (to_double_exact k Hk').
    unfold SF64div, SFdiv.
    rewrite SFdiv_core_binary_normal by (rewrite ?Z2Pos.id by lia; lia).
    simpl xorb. rewrite !Z2Pos.id by lia.
    set (e' := expo (100 * x) - expo y - 53).
    assert (H2y : 0 < 2 ^ (- expo y)) by (apply Z.pow_pos_nonneg; lia).
    assert (H2X : 0 < 2 ^ (- expo (100 * x))) by (apply Z.pow_pos_nonneg; lia).
    assert (H2e : 0 < 2 ^ (- e')) by (apply Z.pow_pos_nonneg; unfold e'; lia).
    (* the dividend is the divisor times k * 2^(-e') *)
    assert (HN : mant (100 * x) * 2 ^ 53 = k * 2 ^ (- e') * mant y).
    { rewrite !mant_expo.
      assert (Hp : 2 ^ (- expo (100 * x)) * 2 ^ 53 = 2 ^ (- e') * 2 ^ (- expo y)).
      { unfold e'. rewrite <- !Z.pow_add_r by lia. f_equal. lia. }
      replace (100 * x * 2 ^ (- expo (100 * x)) * 2 ^ 53)
        with (k * y * (2 ^ (- expo (100 * x)) * 2 ^ 53))
        by (rewrite <- Hk; ring).
      rewrite Hp. ring. }
    rewrite HN, Z.div_mul by lia.
    replace (loc_of (k * 2 ^ (- e') * mant y) (mant y) (k * 2 ^ (- e')))
      with loc_Exact by (unfold loc_of; rewrite Z.eqb_refl; reflexivity).
    (* digits: k * y = 100 * x has at most as many digits as k and y have *)
    assert (Hdig : Zdigits2 (100 * x) <= Zdigits2 k + Zdigits2 y).
    { destruct (Zdigits2_bounds k) as [Hdk [_ Hkhi]]; [lia |].
      destruct (Zdigits2_bounds y) as [Hdy [_ Hyhi]]; [lia |].
      apply Zdigits2_le; [lia |]. rewrite Z.pow_add_r by lia. nia. }
    apply binary_round_aux_exact; try lia.
    + unfold e', expo in *. lia.
    + rewrite mant_expo. rewrite <- Z.mul_assoc, <- Z.pow_add_r by (unfold e', expo in *; lia).
      do 2 f_equal. lia.
Qed.

End Binary64Facts.

(** ** The two sentinels are different values *)

Lemma zero_is_not_unavailable : 0%float <> (-1)%float.
Proof.
  intros H. apply (f_equal (fun x => PrimFloat.ltb x 0%float)) in H.
  vm_compute in H. discriminate H.
Qed.

(** ** CPU usage *)

Module CpuFacts.
Import Cpu.

(** On every call that reads the file, the state left behind is the
    current sample's sums, whichever [return] is taken. *)
Lemma next_after_read st p t :
  next (get_cpu_usage st (StatOpened p t)) = seed (total_time t) (idle_time t).
Proof.
  unfold get_cpu_usage.
  destruct (first_call st) eqn:Hf; [reflexivity |].
  destruct (U64.sub (total_time t) (last_total st) =? 0); reflexivity.
Qed.

Lemma first_call_after_read st p t :
  first_call (next (get_cpu_usage st (StatOpened p t))) = false.
Proof. rewrite next_after_read. reflexivity. Qed.

(** Any number of failures to open the file leaves the state as it was. *)
Lemma poll_all_unopenable st n :
  poll_all st (repeat StatUnopenable n) = (repeat (-1)%float n, st).
Proof.
  induction n as [| n IH]; simpl; [reflexivity |].
  rewrite IH. reflexivity.
Qed.

Lemma poll_all_app st xs ys :
  poll_all st (xs ++ ys) =
  let '(us, st1) := poll_all st xs in
  let '(vs, st2) := poll_all st1 ys in
  (us ++ vs, st2).
Proof.
  revert st. induction xs as [| x xs IH]; intros st; simpl.
  - destruct (poll_all st ys); reflexivity.
  - rewrite IH.
    destruct (poll_all (next (get_cpu_usage st x)) xs) as [us st1].
    destruct (poll_all st1 ys) as [vs st2]. reflexivity.
Qed.

(** The value returned through the last [return]. *)
Lemma usage_on_divide st p t :
  first_call st = false ->
  U64.sub (total_time t) (last_total st) <> 0 ->
  get_cpu_usage st (StatOpened p t)
  = {| usage :=
         PrimFloat.div
           (PrimFloat.mul 100%float
              (U64.to_double
                 (U64.sub (U64.sub (total_time t) (last_total st))
                          (U64.sub (idle_time t) (last_idle st)))))
           (U64.to_double (U64.sub (total_time t) (last_total st)));
       via := ExitDivide;
       next := seed (total_time t) (idle_time t) |}.
Proof.
  intros Hf Hnz. unfold get_cpu_usage. rewrite Hf.
  destruct (Z.eqb_spec (U64.sub (total_time t) (last_total st)) 0) as [Hz | _];
    [contradiction | reflexivity].
Qed.

(** Whenever the file opens, the value returned is at least 0.0; it is
    never the marker -1.0. *)
Lemma usage_after_read_nonneg st p t :
  PrimFloat.leb 0%float (usage (get_cpu_usage st (StatOpened p t))) = true
  /\ usage (get_cpu_usage st (StatOpened p t)) <> (-1)%float.
Proof.
  unfold get_cpu_usage.
  destruct (first_call st);
    [split; [reflexivity | exact zero_is_not_unavailable] |].
  destruct (Z.eqb_spec (U64.sub (total_time t) (last_total st)) 0) as [Hz | Hnz];
    [split; [reflexivity | exact zero_is_not_unavailable] |].
  simpl usage.
  pose proof (U64Facts.in_range_bounds _ (U64Facts.sub_range (total_time t) (last_total st)))
    as Htd.
  pose proof (U64Facts.in_range_bounds _ (U64Facts.sub_range
                (U64.sub (total_time t) (last_total st))
                (U64.sub (idle_time t) (last_idle st)))) as Hx.
  assert (Hy : 0 < U64.sub (total_time t) (last_total st) < 2 ^ 64) by lia.
  destruct (Binary64Facts.percent_nonneg _ _ Hx Hy) as [Hn _].
  split.
  - apply Binary64Facts.nonneg_sf_leb, Hn.
  - apply Binary64Facts.nonneg_sf_not_minus_one, Hn.
Qed.

End CpuFacts.

(** C1: on a call that is not the first and sees a nonzero total delta,
    the usage returned is [(100.0 * (total_delta - idle_delta)) / total_delta],
    the deltas being the differences (of 64-bit unsigned integers) between
    the sums of the current sample and the stored ones, and the operations
    on [double] being those of the source; when the idle delta is not above
    the total delta, [100 * total_delta] is below [2^53] and the quotient
    is an integer, the [double] returned is that integer; and two polls
    whose samples have the sums (100, 10) and then (200, 30) report 0.0 and
    then 80.0. *)
Theorem cpu_usage_formula :
  (forall (st : Cpu.cpu_state) (p : bool) (t : Cpu.CpuTicks),
      Cpu.first_call st = false ->
      let total_delta := U64.sub (Cpu.total_time t) (Cpu.last_total st) in
      let idle_delta := U64.sub (Cpu.idle_time t) (Cpu.last_idle st) in
      0 < total_delta ->
      Cpu.usage (Cpu.get_cpu_usage st (Cpu.StatOpened p t)) =
        PrimFloat.div
          (PrimFloat.mul 100%float
             (U64.to_double (U64.sub total_delta idle_delta)))
          (U64.to_double total_delta)
      /\ Cpu.via (Cpu.get_cpu_usage st (Cpu.StatOpened p t)) = Cpu.ExitDivide
      /\ (forall k : Z,
            idle_delta <= total_delta ->
            100 * total_delta < 2 ^ 53 ->
            100 * (total_delta - idle_delta) = k * total_delta ->
            Cpu.usage (Cpu.get_cpu_usage st (Cpu.StatOpened p t))
            = U64.to_double k))
  /\ (forall (p1 p2 : bool) (t1 t2 : Cpu.CpuTicks),
      Cpu.total_time t1 = 100 -> Cpu.idle_time t1 = 10 ->
      Cpu.total_time t2 = 200 -> Cpu.idle_time t2 = 30 ->
      fst (Cpu.poll_all Cpu.cpu_initial
             [Cpu.StatOpened p1 t1; Cpu.StatOpened p2 t2])
      = [0%float; 80%float]).
Proof.
  split.
  - intros st p t Hf total_delta idle_delta Hpos.
    rewrite CpuFacts.usage_on_divide by (try assumption; fold total_delta; lia).
    simpl Cpu.usage. simpl Cpu.via. fold total_delta. fold idle_delta.
    split; [reflexivity |]. split; [reflexivity |].
    intros k Hle Hsmall Hk.
    assert (Hid : U64.in_range idle_delta) by apply U64Facts.sub_range.
    assert (Htd : U64.in_range total_delta) by apply U64Facts.sub_range.
    rewrite (U64Facts.sub_no_borrow total_delta idle_delta Htd Hid Hle).
    apply Binary64Facts.percent_exact; unfold U64.in_range in Hid; lia.
  - intros p1 p2 t1 t2 Ht1 Hi1 Ht2 Hi2.
    simpl. rewrite Ht1, Hi1, Ht2, Hi2. vm_compute. reflexivity.
Qed.

Lemma cpu_usage_formula_witness :
  Cpu.usage (Cpu.get_cpu_usage (Cpu.seed 100 10)
               (Cpu.StatOpened true (Cpu.sample 200 30))) = 80%float
  /\ Cpu.usage (Cpu.get_cpu_usage (Cpu.seed 100 10)
                  (Cpu.StatOpened true (Cpu.sample 200 30)))
     = U64.to_double 80
  /\ fst (Cpu.poll_all Cpu.cpu_initial
            [Cpu.StatOpened true (Cpu.sample 100 10);
             Cpu.StatOpened true (Cpu.sample 200 30)])
     = [0%float; 80%float].
Proof.
  assert (Hpos : 0 < U64.sub (Cpu.total_time (Cpu.sample 200 30))
                             (Cpu.last_total (Cpu.seed 100 10)))
    by (vm_compute; reflexivity).
  destruct (proj1 cpu_usage_formula (Cpu.seed 100 10) true
              (Cpu.sample 200 30) eq_refl Hpos) as (Hu & _ & Hk).
  split; [| split].
  - rewrite Hu. vm_compute. reflexivity.
  - apply Hk.
    + vm_compute. discriminate.
    + vm_compute. reflexivity.
    + vm_compute. reflexivity.
  - apply (proj2 cpu_usage_formula); vm_compute; reflexivity.
Defined.

(** C4: the first call that reads the file returns exactly 0.0 through the
    [return] of the first-call branch, which comes before the deltas and
    the division are computed, and it stores the sums of that sample as the
    previous ones; so the first of any sequence of polls whose first read
    succeeds reports 0.0. *)
Theorem cpu_first_call_bootstrap :
  forall (st : Cpu.cpu_state) (p : bool) (t : Cpu.CpuTicks)
         (rest : list Cpu.proc_stat),
    Cpu.first_call st = true ->
    let o := Cpu.get_cpu_usage st (Cpu.StatOpened p t) in
    Cpu.usage o = 0%float
    /\ Cpu.via o = Cpu.ExitFirstCall
    /\ Cpu.next o = {| Cpu.first_call := false;
                       Cpu.last_total := Cpu.total_time t;
                       Cpu.last_idle := Cpu.idle_time t |}
    /\ hd_error (fst (Cpu.poll_all st (Cpu.StatOpened p t :: rest)))
       = Some 0%float.
Proof.
  intros st p t rest Hf o. subst o.
  unfold Cpu.get_cpu_usage at 1 2 3. rewrite Hf. simpl.
  repeat split; try reflexivity.
  destruct (Cpu.poll_all _ rest) as [us st'] eqn:Hp.
  unfold Cpu.get_cpu_usage. rewrite Hf. reflexivity.
Qed.

Lemma cpu_first_call_bootstrap_witness :
  Cpu.usage (Cpu.get_cpu_usage Cpu.cpu_initial
               (Cpu.StatOpened true (Cpu.sample 100 10))) = 0%float.
Proof.
  exact (proj1 (cpu_first_call_bootstrap Cpu.cpu_initial true
                  (Cpu.sample 100 10) [] eq_refl)).
Defined.

(** C5: on a call that is not the first, a total delta of zero gives
    exactly 0.0, and the stored sums are overwritten with those of the
    current sample, as they are when the delta is not zero. *)
Theorem cpu_zero_delta :
  forall (st : Cpu.cpu_state) (p : bool) (t : Cpu.CpuTicks),
    Cpu.first_call st = false ->
    (U64.sub (Cpu.total_time t) (Cpu.last_total st) = 0 ->
     Cpu.usage (Cpu.get_cpu_usage st (Cpu.StatOpened p t)) = 0%float
     /\ Cpu.via (Cpu.get_cpu_usage st (Cpu.StatOpened p t)) = Cpu.ExitZeroDelta)
    /\ Cpu.next (Cpu.get_cpu_usage st (Cpu.StatOpened p t))
       = {| Cpu.first_call := false;
            Cpu.last_total := Cpu.total_time t;
            Cpu.last_idle := Cpu.idle_time t |}.
Proof.
  intros st p t Hf. split.
  - intros Hz. unfold Cpu.get_cpu_usage. rewrite Hf, Hz. simpl.
    split; reflexivity.
  - apply CpuFacts.next_after_read.
Qed.

Lemma cpu_zero_delta_witness :
  Cpu.usage (Cpu.get_cpu_usage (Cpu.seed 100 10)
               (Cpu.StatOpened true (Cpu.sample 100 10))) = 0%float
  /\ Cpu.next (Cpu.get_cpu_usage (Cpu.seed 100 10)
                 (Cpu.StatOpened true (Cpu.sample 100 10)))
     = Cpu.seed 100 10.
Proof.
  pose proof (cpu_zero_delta (Cpu.seed 100 10) true (Cpu.sample 100 10)
                eq_refl) as [Hzero Hnext].
  split.
  - exact (proj1 (Hzero eq_refl)).
  - exact Hnext.
Defined.

(** X27: on a call that is not the first, with a total delta that is
    positive, an idle delta that is not above it, and [100 * total_delta]
    at most [2^55] (so that the conversions to [double] and the product by
    100.0 are exact), the usage returned is at least 0.0 and at most
    100.0. *)
Theorem cpu_usage_within_0_100 :
  forall (st : Cpu.cpu_state) (p : bool) (t : Cpu.CpuTicks),
    Cpu.first_call st = false ->
    let total_delta := U64.sub (Cpu.total_time t) (Cpu.last_total st) in
    let idle_delta := U64.sub (Cpu.idle_time t) (Cpu.last_idle st) in
    0 < total_delta ->
    idle_delta <= total_delta ->
    100 * total_delta <= 2 ^ 55 ->
    let u := Cpu.usage (Cpu.get_cpu_usage st (Cpu.StatOpened p t)) in
    PrimFloat.leb 0%float u = true /\ PrimFloat.leb u 100%float = true.
Proof.
  intros st p t Hf total_delta idle_delta Hpos Hle Hsmall u. subst u.
  rewrite CpuFacts.usage_on_divide by (try assumption; fold total_delta; lia).
  simpl Cpu.usage. fold total_delta. fold idle_delta.
  assert (Hid : U64.in_range idle_delta) by apply U64Facts.sub_range.
  assert (Htd : U64.in_range total_delta) by apply U64Facts.sub_range.
  rewrite (U64Facts.sub_no_borrow total_delta idle_delta Htd Hid Hle).
  apply Binary64Facts.percent_in_range; unfold U64.in_range in Hid; lia.
Qed.

Lemma cpu_usage_within_0_100_witness :
  PrimFloat.leb 0%float
    (Cpu.usage (Cpu.get_cpu_usage (Cpu.seed 100 10)
                  (Cpu.StatOpened true (Cpu.sample 200 30)))) = true
  /\ PrimFloat.leb
       (Cpu.usage (Cpu.get_cpu_usage (Cpu.seed 100 10)
                     (Cpu.StatOpened true (Cpu.sample 200 30))))
       100%float = true.
Proof.
  apply (cpu_usage_within_0_100 (Cpu.seed 100 10) true (Cpu.sample 200 30)).
  - reflexivity.
  - vm_compute. reflexivity.
  - vm_compute. discriminate.
  - vm_compute. discriminate.
Defined.

(** C6: the usage is not always within 0.0 and 100.0, though the comment
    of [get_cpu_usage] promises a percentage of 0.0-100.0 and the
    specification says the same.  On a call that is not the first, with a
    total delta of 360287970189643 (where [100 * total_delta] is
    [2^55 + 332]) and an idle delta of 0, the product
    [100.0 * 360287970189643] is rounded up to 36028797018964304, and the
    quotient returned is the [double] next above 100. *)
Lemma cpu_usage_above_100 :
  let st := Cpu.seed 0 0 in
  let t := Cpu.sample 360287970189643 0 in
  let total_delta := U64.sub (Cpu.total_time t) (Cpu.last_total st) in
  let idle_delta := U64.sub (Cpu.idle_time t) (Cpu.last_idle st) in
  let u := Cpu.usage (Cpu.get_cpu_usage st (Cpu.StatOpened true t)) in
  Cpu.first_call st = false
  /\ total_delta = 360287970189643
  /\ 100 * total_delta = 2 ^ 55 + 332
  /\ idle_delta = 0
  /\ PrimFloat.mul 100%float (U64.to_double 360287970189643)
     = U64.to_double 36028797018964304
  /\ u = PrimFloat.next_up 100%float
  /\ PrimFloat.leb u 100%float = false.
Proof.
  vm_compute. repeat split; reflexivity.
Qed.

(** C9, the part the code does: when the file cannot be opened the reader
    returns -1.0.  And the part it does not: when the file opens and the
    extraction fails, the stream state is never tested, so the call does
    what it does after a good read of the same values, whatever they are:
    it never returns -1.0, and from the initial state it returns 0.0 and
    records those values as the previous sample. *)
Theorem cpu_unparsed_source_not_reported :
  (forall st : Cpu.cpu_state,
      Cpu.usage (Cpu.get_cpu_usage st Cpu.StatUnopenable) = (-1)%float)
  /\ (forall t : Cpu.CpuTicks,
      let o := Cpu.get_cpu_usage Cpu.cpu_initial (Cpu.StatOpened false t) in
      Cpu.usage o = 0%float
      /\ Cpu.next o = Cpu.seed (Cpu.total_time t) (Cpu.idle_time t))
  /\ (forall (st : Cpu.cpu_state) (t : Cpu.CpuTicks),
      Cpu.get_cpu_usage st (Cpu.StatOpened false t)
      = Cpu.get_cpu_usage st (Cpu.StatOpened true t)
      /\ Cpu.usage (Cpu.get_cpu_usage st (Cpu.StatOpened false t))
         <> (-1)%float).
Proof.
  split; [| split].
  - intros st. reflexivity.
  - intros t. simpl. split; reflexivity.
  - intros st t. split; [reflexivity |].
    apply CpuFacts.usage_after_read_nonneg.
Qed.

(** C10: when the file cannot be opened, the call returns -1.0 and the
    state is the one it was given; hence, however many such failures come
    first, the first read that succeeds is still the bootstrap call: it
    returns 0.0 and stores its own sums. *)
Theorem cpu_open_failure_keeps_state :
  (forall st : Cpu.cpu_state,
      Cpu.get_cpu_usage st Cpu.StatUnopenable
      = {| Cpu.usage := (-1)%float; Cpu.via := Cpu.ExitOpenError;
           Cpu.next := st |})
  /\ (forall (n : nat) (p : bool) (t : Cpu.CpuTicks),
      Cpu.poll_all Cpu.cpu_initial
        (repeat Cpu.StatUnopenable n ++ [Cpu.StatOpened p t])
      = (repeat (-1)%float n ++ [0%float],
         Cpu.seed (Cpu.total_time t) (Cpu.idle_time t))).
Proof.
  split.
  - intros st. reflexivity.
  - intros n p t. rewrite CpuFacts.poll_all_app.
    rewrite CpuFacts.poll_all_unopenable. reflexivity.
Qed.

(** ** Disk usage *)

Module DiskFacts.
Import Disk.

(** After a successful [statvfs] the value returned is at least 0.0. *)
Lemma usage_after_statvfs_nonneg fs :
  PrimFloat.leb 0%float (get_disk_usage (Some fs)) = true
  /\ get_disk_usage (Some fs) <> (-1)%float.
Proof.
  unfold get_disk_usage.
  destruct (Z.eqb_spec (total_space fs) 0) as [Hz | Hnz];
    [split; [reflexivity | exact zero_is_not_unavailable] |].
  assert (Htot : 0 <= total_space fs < 2 ^ 64)
    by (apply U64Facts.in_range_bounds, U64Facts.wrap_range).
  assert (Hx : 0 <= U64.sub (total_space fs) (available_space fs) < 2 ^ 64)
    by (apply U64Facts.in_range_bounds, U64Facts.sub_range).
  assert (Hy : 0 < total_space fs < 2 ^ 64) by lia.
  destruct (Binary64Facts.percent_nonneg _ _ Hx Hy) as [_ Hn].
  split.
  - apply Binary64Facts.nonneg_sf_leb, Hn.
  - apply Binary64Facts.nonneg_sf_not_minus_one, Hn.
Qed.

End DiskFacts.

(** C8: when [statvfs] succeeds and the total space is zero, the reader
    returns exactly 0.0, which is not the marker -1.0; the marker is what
    it returns when [statvfs] fails, and only then.  The total space is the
    64-bit product the source computes, which is zero in particular when
    the product of the block count and the fragment size is zero. *)
Theorem disk_zero_total_is_zero_percent :
  (forall fs : Disk.statvfs_t,
      Disk.total_space fs = 0 ->
      Disk.get_disk_usage (Some fs) = 0%float
      /\ Disk.get_disk_usage (Some fs) <> (-1)%float)
  /\ (forall fs : Disk.statvfs_t,
      Disk.f_blocks fs * Disk.f_frsize fs = 0 -> Disk.total_space fs = 0)
  /\ (forall r : option Disk.statvfs_t,
      Disk.get_disk_usage r = (-1)%float <-> r = None).
Proof.
  split; [| split].
  - intros fs Hz. unfold Disk.get_disk_usage. rewrite Hz. simpl.
    split; [reflexivity | exact zero_is_not_unavailable].
  - intros fs Hz. unfold Disk.total_space, U64.mul. rewrite Hz. reflexivity.
  - intros [fs |]; split; intros H; try reflexivity; try discriminate H.
    exfalso. exact (proj2 (DiskFacts.usage_after_statvfs_nonneg fs) H).
Qed.

Lemma disk_zero_total_is_zero_percent_witness :
  Disk.total_space (Disk.mkStatvfs 0 4096 0) = 0
  /\ Disk.get_disk_usage (Some (Disk.mkStatvfs 0 4096 0)) = 0%float.
Proof.
  assert (Hz : Disk.total_space (Disk.mkStatvfs 0 4096 0) = 0)
    by (apply (proj1 (proj2 disk_zero_total_is_zero_percent)); reflexivity).
  split; [exact Hz |].
  exact (proj1 (proj1 disk_zero_total_is_zero_percent _ Hz)).
Defined.

(** ** Network rates *)

Module NetFacts.
Import Net.


Lemma clamp_delta_increase current previous :
  U64.in_range current -> U64.in_range previous -> previous <= current ->
  clamp_delta current previous = current - previous.
Proof.
  intros Hc Hp Hle. unfold clamp_delta.
  destruct (previous <=? current) eqn:Hb.
  - apply U64Facts.sub_no_borrow; assumption.
  - apply Z.leb_gt in Hb. lia.
Qed.


Lemma clamp_delta_new current :
  U64.in_range current -> clamp_delta current 0 = current.
Proof.
  intros Hc. rewrite clamp_delta_increase; try assumption.
  - lia.
  - unfold U64.in_range, U64.modulus. lia.
  - unfold U64.in_range in Hc. lia.
Qed.

Lemma add_interface_lo prev cur acc : add_interface prev "lo" cur acc = acc.
Proof. reflexivity. Qed.

Lemma add_interface_other prev name cur acc :
  name <> "lo"%string ->
  add_interface prev name cur acc =
    (U64.add (fst acc) (rx_delta prev name cur),
     U64.add (snd acc) (tx_delta prev name cur)).
Proof.
  intros Hne. unfold add_interface.
  destruct (String.eqb name "lo") eqn:He; [| reflexivity].
  apply String.eqb_eq in He. contradiction.
Qed.

(** The iterations of the loop commute, so the order in which the map is
    visited does not matter. *)
Lemma add_interface_comm prev n1 c1 n2 c2 acc :
  add_interface prev n1 c1 (add_interface prev n2 c2 acc) =
  add_interface prev n2 c2 (add_interface prev n1 c1 acc).
Proof.
  unfold add_interface.
  destruct (String.eqb n1 "lo"), (String.eqb n2 "lo"); try reflexivity.
  simpl. f_equal; apply U64Facts.add_swap.
Qed.

Lemma total_rates_empty prev : total_rates prev ∅ = (0, 0).
Proof. unfold total_rates. apply map_fold_empty. Qed.

Lemma total_rates_insert prev (cur : net_stats) name c :
  cur !! name = None ->
  total_rates prev (<[name := c]> cur) =
    add_interface prev name c (total_rates prev cur).
Proof.
  intros Hnone. unfold total_rates. apply map_fold_insert_L; [| exact Hnone].
  intros j1 j2 z1 z2 y _ _ _. apply add_interface_comm.
Qed.

(** The totals are what the interface adds to the totals of the others. *)
Lemma total_rates_present prev (cur : net_stats) name c :
  cur !! name = Some c ->
  total_rates prev cur =
    add_interface prev name c (total_rates prev (delete name cur)).
Proof.
  intros Hsome. rewrite <- total_rates_insert by apply lookup_delete_eq.
  rewrite insert_delete_id by exact Hsome. reflexivity.
Qed.


(** The loopback entry of the stored sample is never looked up. *)
Lemma total_rates_prev_lo (prev cur : net_stats) p :
  total_rates (<["lo"%string := p]> prev) cur = total_rates prev cur.
Proof.
  induction cur as [| name c cur Hnone IH] using map_ind.
  - rewrite !total_rates_empty. reflexivity.
  - rewrite !total_rates_insert by exact Hnone. rewrite IH.
    unfold add_interface, rx_delta, tx_delta, previous_of.
    destruct (String.eqb name "lo") eqn:He; [reflexivity |].
    apply String.eqb_neq in He.
    rewrite lookup_insert_ne by congruence. reflexivity.
Qed.

End NetFacts.



(** C3: the entry "lo" of the current sample adds nothing to either rate,
    whatever its counters, and the entry "lo" of the stored sample is never
    used; with the stored sample eth0 = (1000, 500) and the current sample
    eth0 = (1500, 500), lo = (9999, 9999), the rates are 500 and 0, and the
    current sample becomes the stored one. *)
Theorem net_loopback_ignored :
  (forall (prev cur : Net.net_stats) (c : Z * Z),
      Net.total_rates prev (<["lo"%string := c]> cur)
      = Net.total_rates prev (delete "lo"%string cur))
  /\ (forall prev cur : Net.net_stats,
      Net.total_rates prev cur = Net.total_rates prev (delete "lo"%string cur))
  /\ (forall (prev cur : Net.net_stats) (p : Z * Z),
      Net.total_rates (<["lo"%string := p]> prev) cur = Net.total_rates prev cur)
  /\ Net.poll_network
       {[ "eth0"%string := (1000, 500) ]}
       (<["lo"%string := (9999, 9999)]> {[ "eth0"%string := (1500, 500) ]})
     = ((500, 0),
        <["lo"%string := (9999, 9999)]> {[ "eth0"%string := (1500, 500) ]}).
Proof.
  split; [| split; [| split]].
  - intros prev cur c. rewrite <- insert_delete_eq.
    rewrite NetFacts.total_rates_insert by apply lookup_delete_eq.
    apply NetFacts.add_interface_lo.
  - intros prev cur. destruct (cur !! "lo"%string) as [c |] eqn:Hlo.
    + rewrite (NetFacts.total_rates_present prev cur "lo"%string c Hlo).
      apply NetFacts.add_interface_lo.
    + rewrite delete_id by exact Hlo. reflexivity.
  - intros prev cur p. apply NetFacts.total_rates_prev_lo.
  - unfold Net.poll_network.
    replace (Net.total_rates _ _) with (500, 0) by (vm_compute; reflexivity).
    reflexivity.
Qed.

(** C7, as the code has it: an interface other than "lo" that is in the
    current sample and not in the stored one has previous counters 0 and 0,
    its deltas are its current counters, and the aggregate rates are those
    of the other interfaces plus these counters. *)
Theorem net_new_interface_contributes_current :
  forall (prev cur : Net.net_stats) (name : string) (rx tx : Z),
    name <> "lo"%string ->
    prev !! name = None ->
    cur !! name = Some (rx, tx) ->
    U64.in_range rx -> U64.in_range tx ->
    let others := Net.total_rates prev (delete name cur) in
    Net.previous_of prev name = (0, 0)
    /\ Net.rx_delta prev name (rx, tx) = rx
    /\ Net.tx_delta prev name (rx, tx) = tx
    /\ Net.total_rates prev cur
       = (U64.add (fst others) rx, U64.add (snd others) tx).
Proof.
  intros prev cur name rx tx Hne Hprev Hcur Hrx Htx others.
  assert (Hp : Net.previous_of prev name = (0, 0))
    by (unfold Net.previous_of; rewrite Hprev; reflexivity).
  assert (Hdrx : Net.rx_delta prev name (rx, tx) = rx)
    by (unfold Net.rx_delta; rewrite Hp; apply NetFacts.clamp_delta_new, Hrx).
  assert (Hdtx : Net.tx_delta prev name (rx, tx) = tx)
    by (unfold Net.tx_delta; rewrite Hp; apply NetFacts.clamp_delta_new, Htx).
  repeat split; try assumption.
  rewrite (NetFacts.total_rates_present prev cur name (rx, tx) Hcur).
  rewrite NetFacts.add_interface_other by exact Hne.
  rewrite Hdrx, Hdtx. reflexivity.
Qed.

Lemma net_new_interface_contributes_current_witness :
  Net.total_rates {[ "eth0"%string := (1000, 500) ]}
    (<[ "wlan0"%string := (70, 90) ]> {[ "eth0"%string := (1500, 500) ]})
  = (570, 90).
Proof.
  refine (eq_trans
            (proj2 (proj2 (proj2
               (net_new_interface_contributes_current
                  {[ "eth0"%string := (1000, 500) ]}
                  (<[ "wlan0"%string := (70, 90) ]>
                     {[ "eth0"%string := (1500, 500) ]})
                  "wlan0"%string 70 90 _ _ _ _ _)))) _).
  - discriminate.
  - vm_compute. reflexivity.
  - vm_compute. reflexivity.
  - unfold U64.in_range, U64.modulus. lia.
  - unfold U64.in_range, U64.modulus. lia.
  - vm_compute. reflexivity.
Defined.

(** C7 as the specification words it, for every interface, fails on the
    loopback: in the specification's own example "lo" is new in the current
    sample with counters (9999, 9999), and the rates are those of the
    sample without it, not those plus 9999. *)
Lemma net_new_loopback_contributes_nothing :
  let prev : Net.net_stats := {[ "eth0"%string := (1000, 500) ]} in
  let cur : Net.net_stats :=
    <["lo"%string := (9999, 9999)]> {[ "eth0"%string := (1500, 500) ]} in
  let others := Net.total_rates prev (delete "lo"%string cur) in
  prev !! "lo"%string = None
  /\ cur !! "lo"%string = Some (9999, 9999)
  /\ Net.total_rates prev cur = others
  /\ Net.total_rates prev cur
     <> (U64.add (fst others) 9999, U64.add (snd others) 9999).
Proof.
  intros prev cur others.
  assert (Ho : others = (500, 0)) by (vm_compute; reflexivity).
  assert (Ht : Net.total_rates prev cur = (500, 0)) by (vm_compute; reflexivity).
  split; [reflexivity |]. split; [reflexivity |].
  rewrite Ht, Ho. split; [reflexivity |].
  vm_compute. discriminate.
Qed.

(** * More of the program *)

(** ** More facts on the binary64 operations *)

Module Binary64More.
Import Binary64 Binary64Facts.

Lemma SFmul_comm (a b : spec_float) :
  SFmul prec emax a b = SFmul prec emax b a.
Proof.
  destruct a as [sa | sa | | sa ma ea], b as [sb | sb | | sb mb eb];
    simpl; rewrite ?(xorb_comm sa sb); try reflexivity.
  rewrite (Pos.mul_comm ma mb), (Z.add_comm ea eb). reflexivity.
Qed.

Lemma mul_comm (x y : float) : PrimFloat.mul x y = PrimFloat.mul y x.
Proof.
  apply Prim2SF_inj. rewrite !mul_spec. apply SFmul_comm.
Qed.

(** The quotient with the product written the other way round, as the
    RAM and disk readers have it. *)
Lemma percent_in_range_r (x y : Z) :
  0 <= x <= y -> 0 < y -> 100 * y <= 2 ^ 55 ->
  let u := PrimFloat.div (PrimFloat.mul (U64.to_double x) 100%float)
                         (U64.to_double y) in
  PrimFloat.leb 0%float u = true /\ PrimFloat.leb u 100%float = true.
Proof.
  intros Hx Hy Hb. rewrite mul_comm. apply percent_in_range; assumption.
Qed.

Lemma percent_exact_r (x y k : Z) :
  0 <= x <= y -> 0 < y -> 100 * y < 2 ^ 53 -> 100 * x = k * y ->
  PrimFloat.div (PrimFloat.mul (U64.to_double x) 100%float) (U64.to_double y)
  = U64.to_double k.
Proof.
  intros Hx Hy Hb Hk. rewrite mul_comm. apply percent_exact; assumption.
Qed.


(** The sign given to the rounding is the sign of its result. *)
Lemma binary_round_aux_sign (sx : bool) (mx ex : Z) (lx : location) :
  binary_round_aux prec emax sx mx ex lx
  = Binary64Sign.with_sign sx (binary_round_aux prec emax false mx ex lx).
Proof.
  unfold binary_round_aux.
  destruct (shr_fexp prec emax mx ex lx) as [mrs1 e1].
  destruct (shr_fexp prec emax _ e1 loc_Exact) as [mrs2 e2].
  destruct (shr_m mrs2); try reflexivity.
  destruct (e2 <=? emax - prec); reflexivity.
Qed.

(** The conversion of a negative integer above [-2^64] is a negative
    normal number. *)
Lemma binary_normalize_negative (p : positive) :
  Z.pos p < 2 ^ 64 ->
  exists M E : Z,
    2 ^ 52 <= M < 2 ^ 53 /\ -52 <= E <= 12
    /\ binary_normalize prec emax (Z.neg p) 0 false
       = S754_finite true (Z.to_pos M) E.
Proof.
  intros Hp.
  destruct (binary_normalize_shape (Z.pos p)) as (M & E & HM & HE & Heq);
    [lia |].
  exists M, E. split; [exact HM |]. split; [exact HE |].
  unfold binary_normalize, binary_round in *.
  destruct (shl_align p 0 _) as [mz ez].
  rewrite binary_round_aux_sign, Heq. reflexivity.
Qed.

Lemma to_double_negative (z : Z) :
  - 2 ^ 64 < z < 0 ->
  PrimFloat.leb 0%float (U64.to_double z) = false.
Proof.
  intros Hz. destruct z as [| p | p]; try lia.
  destruct (binary_normalize_negative p) as (M & E & HM & HE & Heq); [lia |].
  rewrite leb_spec. unfold U64.to_double. rewrite Heq.
  rewrite Prim2SF_SF2Prim
    by (exact (valid_binary_canonical M E HM ltac:(lia))).
  reflexivity.
Qed.

(** A quotient by a positive finite number keeps being at least 0.0. *)
Lemma div_nonneg (z : Z) (d : float) (md : positive) (ed : Z) :
  0 <= z < 2 ^ 64 -> Prim2SF d = S754_finite false md ed ->
  PrimFloat.leb 0%float (PrimFloat.div (U64.to_double z) d) = true.
Proof.
  intros Hz Hd. apply nonneg_sf_leb. rewrite div_spec, Hd.
  apply SFdiv_nonneg, to_double_nonneg, Hz.
Qed.

(** The core of the division of two normal numbers, whatever their
    exponents (within the range where the quotient is normal). *)
Lemma SFdiv_core_binary_wide (ma ea mb eb : Z) :
  2 ^ 52 <= ma < 2 ^ 53 -> 2 ^ 52 <= mb < 2 ^ 53 ->
  -1000 <= ea - eb <= 1000 ->
  SFdiv_core_binary prec emax ma ea mb eb
  = (ma * 2 ^ 53 / mb, ea - eb - 53,
     loc_of (ma * 2 ^ 53) mb (ma * 2 ^ 53 / mb)).
Proof.
  intros Hma Hmb He. unfold SFdiv_core_binary. fold fexp64.
  rewrite (Zdigits2_unique ma 53), (Zdigits2_unique mb 53) by lia.
  rewrite fexp64_eq.
  replace (Z.min (Z.max (53 + ea - (53 + eb) - 53) (-1074)) (ea - eb))
    with (ea - eb - 53) by lia.
  replace (ea - eb - (ea - eb - 53)) with 53 by lia.
  rewrite Z.shiftl_mul_pow2 by lia.
  pose proof (Z_div_mod (ma * 2 ^ 53) mb) as Hdm.
  unfold Z.div. destruct (Z.div_eucl (ma * 2 ^ 53) mb) as [q r].
  destruct Hdm as [Heq Hr]; [lia |].
  rewrite (new_location_loc_of mb q r) by lia.
  do 2 f_equal. lia.
Qed.

(** Dividing a normal number by 1024.0 lowers its exponent by 10 and
    keeps its mantissa: nothing is rounded. *)
Lemma div_1024_exact (v : float) (M E : Z) :
  2 ^ 52 <= M < 2 ^ 53 -> -900 <= E <= 900 ->
  Prim2SF v = S754_finite false (Z.to_pos M) E ->
  Prim2SF (PrimFloat.div v 1024%float)
  = S754_finite false (Z.to_pos M) (E - 10).
Proof.
  intros HM HE Hv. rewrite div_spec, Hv.
  replace (Prim2SF 1024%float)
    with (S754_finite false 4503599627370496 (-42))
    by (vm_compute; reflexivity).
  unfold SF64div, SFdiv.
  rewrite SFdiv_core_binary_wide
    by (rewrite ?Z2Pos.id by lia;
        change (Z.pos 4503599627370496) with (2 ^ 52); lia).
  simpl xorb. rewrite Z2Pos.id by lia.
  change (Z.pos 4503599627370496) with (2 ^ 52).
  replace (M * 2 ^ 53) with (2 * M * 2 ^ 52)
    by (change (2 ^ 53) with (2 * 2 ^ 52); ring).
  rewrite Z.div_mul by (change (2 ^ 52) with 4503599627370496; lia).
  replace (loc_of (2 * M * 2 ^ 52) (2 ^ 52) (2 * M)) with loc_Exact
    by (unfold loc_of; rewrite Z.eqb_refl; reflexivity).
  apply binary_round_aux_exact; try lia.
  replace (E - 10 - (E - -42 - 53)) with 1 by lia.
  change (2 ^ 1) with 2. ring.
Qed.

(** A normal number is at least 1024.0 when its exponent is at least
    that of 1024.0. *)
Lemma leb_1024 (v : float) (M E : Z) :
  2 ^ 52 <= M < 2 ^ 53 ->
  Prim2SF v = S754_finite false (Z.to_pos M) E ->
  PrimFloat.leb 1024%float v = (-42 <=? E).
Proof.
  intros HM Hv. rewrite leb_spec, Hv.
  replace (Prim2SF 1024%float)
    with (S754_finite false 4503599627370496 (-42))
    by (vm_compute; reflexivity).
  unfold SFleb, SFcompare.
  destruct (Z.compare_spec (-42) E) as [<- | Hlt | Hgt].
  - change (Pos.compare_cont Eq 4503599627370496 (Z.to_pos M))
      with (Pos.compare 4503599627370496 (Z.to_pos M)).
    rewrite Pos2Z.inj_compare, Z2Pos.id by lia.
    change (Z.pos 4503599627370496) with (2 ^ 52).
    destruct (Z.compare_spec (2 ^ 52) M); try reflexivity. lia.
  - symmetry. apply Z.leb_le. lia.
  - symmetry. apply Z.leb_gt. lia.
Qed.

(** From [2^53] on, the conversion of a 64-bit integer has a positive
    exponent. *)
Lemma to_double_big (z : Z) :
  2 ^ 53 <= z < 2 ^ 64 ->
  exists M E : Z,
    2 ^ 52 <= M < 2 ^ 53 /\ 1 <= E <= 12
    /\ Prim2SF (U64.to_double z) = S754_finite false (Z.to_pos M) E.
Proof.
  intros Hz.
  assert (Hd : 53 < Zdigits2 z) by (apply Zdigits2_ge; lia).
  assert (Hd' : Zdigits2 z <= 64) by (apply Zdigits2_le; lia).
  destruct (Zdigits2_bounds z) as [_ [Hlo Hhi]]; [lia |].
  destruct z as [| p | p]; try lia.
  assert (Hsf : exists M E : Z,
             2 ^ 52 <= M < 2 ^ 53 /\ 1 <= E <= 12
             /\ binary_normalize prec emax (Z.pos p) 0 false
                = S754_finite false (Z.to_pos M) E).
  { unfold binary_normalize, binary_round, shl_align. fold fexp64.
    rewrite Z.add_0_r, Z.sub_0_r, fexp64_eq.
    change (Z.pos (digits2_pos p)) with (Zdigits2 (Z.pos p)).
    rewrite Z.max_l by lia.
    destruct (Zdigits2 (Z.pos p) - 53) as [| d | d] eqn:Hdd; try lia.
    assert (Hloc : loc_Exact = loc_of (Z.pos p) 1 (Z.pos p))
      by (unfold loc_of; rewrite Z.mul_1_r, Z.eqb_refl; reflexivity).
    rewrite Hloc.
    destruct (binary_round_aux_cases (Z.pos p) 0 (Z.pos p) 1)
      as (m1 & Hm1 & HN1 & ->); [lia | lia | lia |].
    replace (Z.max 0 (fexp64 (Zdigits2 (Z.pos p) + 0) - 0)) with (Z.pos d)
      in HN1 |- * by (rewrite fexp64_eq; lia).
    rewrite Z.mul_1_r in HN1 |- *.
    pow2_pos (Z.pos d).
    assert (Hm1lo : 2 ^ 52 <= m1).
    { replace (Zdigits2 (Z.pos p) - 1) with (52 + Z.pos d) in Hlo by lia.
      rewrite Z.pow_add_r in Hlo by lia. nia. }
    cbv zeta.
    set (m' := round_nearest_even m1 (loc_of (Z.pos p) (2 ^ Z.pos d) m1)).
    pose proof (round_nearest_even_range m1
                  (loc_of (Z.pos p) (2 ^ Z.pos d) m1)) as Hr.
    fold m' in Hr.
    destruct (Z.eqb_spec m' 0) as [Hz0 | _]; [lia |].
    unfold finite_or_inf.
    destruct (Z.ltb_spec m' (2 ^ 53)) as [Hlt | Hge].
    - exists m', (0 + Z.pos d). split; [lia |]. split; [lia |].
      destruct (Z.leb_spec (0 + Z.pos d) 971); [reflexivity | lia].
    - exists (2 ^ 52), (0 + Z.pos d + 1). split; [lia |]. split; [lia |].
      destruct (Z.leb_spec (0 + Z.pos d + 1) 971); [reflexivity | lia]. }
  destruct Hsf as (M & E & HM & HE & Heq).
  exists M, E. split; [exact HM |]. split; [exact HE |].
  unfold U64.to_double. rewrite Heq.
  apply Prim2SF_SF2Prim, valid_binary_canonical; lia.
Qed.





End Binary64More.

(** ** RAM usage *)

Module RamFacts.
Import Ram.

(** The values the loop keeps come from the entries, or are the initial
    ones. *)
Lemma scan_range entries mem_total mem_available :
  Forall (fun e => U64.in_range (snd (fst e))) entries ->
  U64.in_range mem_total -> U64.in_range mem_available ->
  U64.in_range (fst (scan entries mem_total mem_available))
  /\ U64.in_range (snd (scan entries mem_total mem_available)).
Proof.
  intros Hall. revert mem_total mem_available.
  induction Hall as [| [[key value] unit] rest Hv _ IH];
    intros mem_total mem_available Ht Ha; simpl.
  - split; assumption.
  - simpl in Hv. destruct (String.eqb key "MemTotal:"); [apply IH; assumption |].
    destruct (String.eqb key "MemAvailable:"); [split; assumption |].
    apply IH; assumption.
Qed.

(** The loop stops at "MemAvailable:": what follows is not read. *)
Lemma scan_break pre value unit post mem_total mem_available :
  scan (pre ++ ("MemAvailable:"%string, value, unit) :: post)
       mem_total mem_available
  = scan (pre ++ [("MemAvailable:"%string, value, unit)])
         mem_total mem_available.
Proof.
  revert mem_total mem_available.
  induction pre as [| [[key v] u] pre IH]; intros mem_total mem_available;
    simpl; [reflexivity |].
  destruct (String.eqb key "MemTotal:"); [apply IH |].
  destruct (String.eqb key "MemAvailable:"); [reflexivity | apply IH].
Qed.

(** Without a "MemTotal:" entry the total stays what it was. *)
Lemma scan_no_total entries mem_total mem_available :
  Forall (fun e => fst (fst e) <> "MemTotal:"%string) entries ->
  fst (scan entries mem_total mem_available) = mem_total.
Proof.
  intros Hall. revert mem_available.
  induction Hall as [| [[key v] u] rest Hk _ IH]; intros mem_available; simpl;
    [reflexivity |].
  simpl in Hk. apply String.eqb_neq in Hk. rewrite Hk.
  destruct (String.eqb key "MemAvailable:"); [reflexivity | apply IH].
Qed.

(** Without a "MemAvailable:" entry the available memory stays what it
    was. *)
Lemma scan_no_available entries mem_total mem_available :
  Forall (fun e => fst (fst e) <> "MemAvailable:"%string) entries ->
  snd (scan entries mem_total mem_available) = mem_available.
Proof.
  intros Hall. revert mem_total.
  induction Hall as [| [[key v] u] rest Hk _ IH]; intros mem_total; simpl;
    [reflexivity |].
  simpl in Hk. apply String.eqb_neq in Hk.
  destruct (String.eqb key "MemTotal:"); [apply IH |].
  rewrite Hk. apply IH.
Qed.

Lemma usage_of_scan entries :
  get_ram_usage (MemOpened entries)
  = if fst (scan entries 0 0) =? 0 then (-1)%float
    else PrimFloat.div
           (PrimFloat.mul
              (U64.to_double (U64.sub (fst (scan entries 0 0))
                                      (snd (scan entries 0 0))))
              100%float)
           (U64.to_double (fst (scan entries 0 0))).
Proof.
  unfold get_ram_usage. destruct (scan entries 0 0) as [t a]. reflexivity.
Qed.

(** With a total that is not zero the value is at least 0.0: it is not
    the marker. *)
Lemma usage_nonneg entries :
  Forall (fun e => U64.in_range (snd (fst e))) entries ->
  fst (scan entries 0 0) <> 0 ->
  PrimFloat.leb 0%float (get_ram_usage (MemOpened entries)) = true
  /\ get_ram_usage (MemOpened entries) <> (-1)%float.
Proof.
  intros Hrange Htnz.
  assert (Hz : U64.in_range 0) by (unfold U64.in_range, U64.modulus; lia).
  destruct (scan_range entries 0 0 Hrange Hz Hz) as [Ht _].
  rewrite usage_of_scan.
  destruct (Z.eqb_spec (fst (scan entries 0 0)) 0) as [Htz | _];
    [contradiction |].
  apply U64Facts.in_range_bounds in Ht.
  assert (Hx : 0 <= U64.sub (fst (scan entries 0 0))
                            (snd (scan entries 0 0)) < 2 ^ 64)
    by (apply U64Facts.in_range_bounds, U64Facts.sub_range).
  assert (Hy : 0 < fst (scan entries 0 0) < 2 ^ 64) by lia.
  destruct (Binary64Facts.percent_nonneg _ _ Hx Hy) as [_ Hn].
  split.
  - apply Binary64Facts.nonneg_sf_leb, Hn.
  - apply Binary64Facts.nonneg_sf_not_minus_one, Hn.
Qed.

Lemma usage_zero_total entries :
  fst (scan entries 0 0) = 0 ->
  get_ram_usage (MemOpened entries) = (-1)%float.
Proof. intros Hz. rewrite usage_of_scan, Hz. reflexivity. Qed.

End RamFacts.

(** X1: the RAM reader returns the marker -1.0 when the file cannot be
    opened; when it opens, it returns -1.0 exactly when the loop ends with
    a total of zero (no "MemTotal:" entry with a nonzero value was read
    before the loop stopped), and a value that is at least 0.0 otherwise. *)
Theorem ram_unavailable_iff :
  Ram.get_ram_usage Ram.MemUnopenable = (-1)%float
  /\ forall entries : list (string * Z * string),
      Forall (fun e => U64.in_range (snd (fst e))) entries ->
      (Ram.get_ram_usage (Ram.MemOpened entries) = (-1)%float
       <-> fst (Ram.scan entries 0 0) = 0)
      /\ (fst (Ram.scan entries 0 0) <> 0 ->
          PrimFloat.leb 0%float (Ram.get_ram_usage (Ram.MemOpened entries))
          = true).
Proof.
  split; [reflexivity |]. intros entries Hrange.
  split.
  - split.
    + intros Hm.
      destruct (Z.eq_dec (fst (Ram.scan entries 0 0)) 0) as [Hz | Hnz];
        [exact Hz |].
      exfalso. exact (proj2 (RamFacts.usage_nonneg entries Hrange Hnz) Hm).
    + apply RamFacts.usage_zero_total.
  - intros Hnz. exact (proj1 (RamFacts.usage_nonneg entries Hrange Hnz)).
Qed.

Lemma ram_unavailable_iff_witness :
  Ram.get_ram_usage
    (Ram.MemOpened [("MemFree:"%string, 100, "kB"%string)]) = (-1)%float
  /\ PrimFloat.leb 0%float
       (Ram.get_ram_usage
          (Ram.MemOpened [("MemTotal:"%string, 100, "kB"%string)])) = true.
Proof.
  assert (Hr : forall k, Forall (fun e : string * Z * string =>
                                   U64.in_range (snd (fst e)))
                           [(k, 100, "kB"%string)]).
  { intros k. repeat constructor; unfold U64.modulus; simpl; lia. }
  split.
  - apply (proj1 (proj2 ram_unavailable_iff _ (Hr "MemFree:"%string))).
    reflexivity.
  - apply (proj2 (proj2 ram_unavailable_iff _ (Hr "MemTotal:"%string))).
    discriminate.
Defined.

(** X2: the loop of the RAM reader stops at the first "MemAvailable:"
    entry, so nothing after it is read; in particular, when no "MemTotal:"
    entry comes before it, the reader returns -1.0 whatever follows, a
    later "MemTotal:" included. *)
Theorem ram_stops_at_available :
  forall (pre post : list (string * Z * string)) (value : Z) (unit : string),
    Ram.get_ram_usage
      (Ram.MemOpened (pre ++ ("MemAvailable:"%string, value, unit) :: post))
    = Ram.get_ram_usage
        (Ram.MemOpened (pre ++ [("MemAvailable:"%string, value, unit)]))
    /\ (Forall (fun e => fst (fst e) <> "MemTotal:"%string) pre ->
        Ram.get_ram_usage
          (Ram.MemOpened (pre ++ ("MemAvailable:"%string, value, unit) :: post))
        = (-1)%float).
Proof.
  intros pre post value unit.
  assert (Heq : Ram.get_ram_usage
      (Ram.MemOpened (pre ++ ("MemAvailable:"%string, value, unit) :: post))
    = Ram.get_ram_usage
        (Ram.MemOpened (pre ++ [("MemAvailable:"%string, value, unit)]))).
  { unfold Ram.get_ram_usage. rewrite RamFacts.scan_break. reflexivity. }
  split; [exact Heq |].
  intros Hpre. rewrite Heq, RamFacts.usage_of_scan.
  rewrite RamFacts.scan_no_total; [reflexivity |].
  apply Forall_app. split; [exact Hpre |].
  constructor; [simpl; discriminate | constructor].
Qed.

Lemma ram_stops_at_available_witness :
  Ram.get_ram_usage
    (Ram.MemOpened [("MemAvailable:"%string, 50, "kB"%string);
                    ("MemTotal:"%string, 100, "kB"%string)])
  = (-1)%float.
Proof.
  apply (proj2 (ram_stops_at_available
                  [] [("MemTotal:"%string, 100, "kB"%string)]
                  50 "kB"%string)).
  constructor.
Defined.

(** X3: when the file has a "MemTotal:" entry and no "MemAvailable:" entry,
    the available memory stays 0 and the usage reported is exactly 100.0
    (for a total below [2^53 / 100], where the arithmetic is exact). *)
Theorem ram_without_available_is_full :
  forall entries : list (string * Z * string),
    Forall (fun e => fst (fst e) <> "MemAvailable:"%string) entries ->
    0 < fst (Ram.scan entries 0 0) ->
    100 * fst (Ram.scan entries 0 0) < 2 ^ 53 ->
    Ram.get_ram_usage (Ram.MemOpened entries) = 100%float.
Proof.
  intros entries Hno Hpos Hsmall.
  rewrite RamFacts.usage_of_scan.
  rewrite (RamFacts.scan_no_available entries 0 0 Hno).
  destruct (Z.eqb_spec (fst (Ram.scan entries 0 0)) 0) as [Hz | _]; [lia |].
  assert (Hr : U64.in_range (fst (Ram.scan entries 0 0)))
    by (unfold U64.in_range, U64.modulus;
        change (2 ^ 53) with 9007199254740992 in Hsmall; lia).
  rewrite (U64Facts.sub_0_r _ Hr).
  rewrite (Binary64More.percent_exact_r _ _ 100); try lia.
  vm_compute. reflexivity.
Qed.

Lemma ram_without_available_is_full_witness :
  Ram.get_ram_usage
    (Ram.MemOpened [("MemTotal:"%string, 8000000, "kB"%string);
                    ("MemFree:"%string, 1000, "kB"%string)])
  = 100%float.
Proof.
  apply ram_without_available_is_full.
  - repeat constructor; simpl; discriminate.
  - vm_compute. reflexivity.
  - vm_compute. reflexivity.
Defined.

(** X4: when the loop ends with a total that is positive, an available
    memory that is not above it, and [100 * mem_total] at most [2^55], the
    RAM usage reported is at least 0.0 and at most 100.0. *)
Theorem ram_usage_within_0_100 :
  forall entries : list (string * Z * string),
    let mem_total := fst (Ram.scan entries 0 0) in
    let mem_available := snd (Ram.scan entries 0 0) in
    0 < mem_total -> 0 <= mem_available <= mem_total ->
    100 * mem_total <= 2 ^ 55 ->
    PrimFloat.leb 0%float (Ram.get_ram_usage (Ram.MemOpened entries)) = true
    /\ PrimFloat.leb (Ram.get_ram_usage (Ram.MemOpened entries)) 100%float
       = true.
Proof.
  intros entries mem_total mem_available Hpos Ha Hb.
  rewrite RamFacts.usage_of_scan. fold mem_total. fold mem_available.
  destruct (Z.eqb_spec mem_total 0) as [Hz | _]; [lia |].
  assert (Hbig : 2 ^ 55 < 2 ^ 64) by reflexivity.
  rewrite U64Facts.sub_no_borrow;
    try (unfold U64.in_range, U64.modulus; lia); try lia.
  apply Binary64More.percent_in_range_r; lia.
Qed.

Lemma ram_usage_within_0_100_witness :
  PrimFloat.leb
    (Ram.get_ram_usage
       (Ram.MemOpened [("MemTotal:"%string, 8000000, "kB"%string);
                       ("MemAvailable:"%string, 3000000, "kB"%string)]))
    100%float = true.
Proof.
  apply (ram_usage_within_0_100
           [("MemTotal:"%string, 8000000, "kB"%string);
            ("MemAvailable:"%string, 3000000, "kB"%string)]).
  - vm_compute. reflexivity.
  - vm_compute. split; discriminate.
  - vm_compute. discriminate.
Defined.

(** ** Disk usage, the range *)

(** X5: when [statvfs] succeeds with a block count, a fragment size and a
    count of available blocks that are not negative, the available blocks
    not above the block count, and a total space that is positive and at
    most [2^55 / 100] bytes (so that neither the 64-bit products nor the
    product by 100.0 lose anything), the disk usage reported is at least
    0.0 and at most 100.0. *)
Theorem disk_usage_within_0_100 :
  forall fs : Disk.statvfs_t,
    0 <= Disk.f_bavail fs <= Disk.f_blocks fs ->
    0 <= Disk.f_frsize fs ->
    0 < Disk.f_blocks fs * Disk.f_frsize fs ->
    100 * (Disk.f_blocks fs * Disk.f_frsize fs) <= 2 ^ 55 ->
    PrimFloat.leb 0%float (Disk.get_disk_usage (Some fs)) = true
    /\ PrimFloat.leb (Disk.get_disk_usage (Some fs)) 100%float = true.
Proof.
  intros fs Hav Hfr Hpos Hb.
  assert (Hbig : 2 ^ 55 < 2 ^ 64) by reflexivity.
  assert (Hle : Disk.f_bavail fs * Disk.f_frsize fs
                <= Disk.f_blocks fs * Disk.f_frsize fs)
    by (apply Z.mul_le_mono_nonneg_r; lia).
  assert (Htot : Disk.total_space fs = Disk.f_blocks fs * Disk.f_frsize fs)
    by (unfold Disk.total_space, U64.mul; apply U64Facts.wrap_small;
        unfold U64.in_range, U64.modulus; lia).
  assert (Hava : Disk.available_space fs
                 = Disk.f_bavail fs * Disk.f_frsize fs)
    by (unfold Disk.available_space, U64.mul; apply U64Facts.wrap_small;
        unfold U64.in_range, U64.modulus; nia).
  unfold Disk.get_disk_usage. rewrite Htot, Hava.
  destruct (Z.eqb_spec (Disk.f_blocks fs * Disk.f_frsize fs) 0); [lia |].
  rewrite U64Facts.sub_no_borrow;
    try (unfold U64.in_range, U64.modulus; nia); try lia.
  apply Binary64More.percent_in_range_r; nia.
Qed.

Lemma disk_usage_within_0_100_witness :
  PrimFloat.leb
    (Disk.get_disk_usage (Some (Disk.mkStatvfs 1000000 4096 250000)))
    100%float = true.
Proof.
  apply (disk_usage_within_0_100 (Disk.mkStatvfs 1000000 4096 250000)).
  - simpl. lia.
  - simpl. lia.
  - simpl. lia.
  - vm_compute. discriminate.
Defined.

(** ** CPU temperature *)

Module ThermalFacts.
Import Thermal.

Lemma long_to_double_eq z : long_to_double z = U64.to_double z.
Proof. reflexivity. Qed.

(** The loop returns at the first zone that gives a value. *)
Lemma probe_first zones remaining :
  forall start k v,
    (start <= k < start + remaining)%nat ->
    zones k = ZoneValue v ->
    (forall j, (start <= j < k)%nat -> unreadable (zones j)) ->
    probe zones start remaining = to_celsius v.
Proof.
  induction remaining as [| r IH]; intros start k v Hk Hv Hbefore; [lia |].
  simpl. destruct (Nat.eq_dec start k) as [-> | Hne].
  - rewrite Hv. reflexivity.
  - assert (Hs : unreadable (zones start)) by (apply Hbefore; lia).
    destruct (zones start) as [| | w] eqn:Hz;
      try (apply (IH (S start) k v); [lia | exact Hv |];
           intros j Hj; apply Hbefore; lia).
    exfalso. exact (Hs w eq_refl).
Qed.

(** With no zone giving a value among those it tries, it returns -1.0. *)
Lemma probe_none zones remaining :
  forall start,
    (forall j, (start <= j < start + remaining)%nat -> unreadable (zones j)) ->
    probe zones start remaining = (-1)%float.
Proof.
  induction remaining as [| r IH]; intros start Hall; [reflexivity |].
  simpl. assert (Hs : unreadable (zones start)) by (apply Hall; lia).
  destruct (zones start) as [| | w] eqn:Hz;
    try (apply IH; intros j Hj; apply Hall; lia).
  exfalso. exact (Hs w eq_refl).
Qed.

(** It reads no zone outside those it tries. *)
Lemma probe_ext zones zones' remaining :
  forall start,
    (forall j, (start <= j < start + remaining)%nat -> zones j = zones' j) ->
    probe zones start remaining = probe zones' start remaining.
Proof.
  induction remaining as [| r IH]; intros start Hext; [reflexivity |].
  simpl. rewrite <- (Hext start) by lia.
  destruct (zones start); try reflexivity; apply IH; intros j Hj; apply Hext; lia.
Qed.

(** Whether a reading is printed. *)
Lemma shown_to_celsius v :
  - 2 ^ 63 <= v < 2 ^ 63 ->
  temperature_shown (to_celsius v) = (0 <=? v).
Proof.
  intros Hv. unfold temperature_shown, to_celsius.
  assert (H63 : 2 ^ 63 < 2 ^ 64) by reflexivity.
  destruct (Z.ltb_spec 1000 v) as [Hbig | Hsmall].
  - rewrite long_to_double_eq.
    rewrite (Binary64More.div_nonneg v 1000%float 8796093022208000 (-43));
      [symmetry; apply Z.leb_le; lia | lia | vm_compute; reflexivity].
  - rewrite long_to_double_eq.
    destruct (Z.leb_spec 0 v) as [Hpos | Hneg].
    + apply Binary64Facts.nonneg_sf_leb, Binary64Facts.to_double_nonneg. lia.
    + apply Binary64More.to_double_negative. lia.
Qed.

End ThermalFacts.

(** X6: the temperature reader tries the zones 0 to 9 and no other: two
    systems that agree on these ten zones give the same result, and when
    none of the ten gives a value the result is -1.0, whatever the zones
    from 10 on hold. *)
Theorem thermal_probe_bounded :
  (forall zones zones' : nat -> Thermal.zone_read,
      (forall n, (n < 10)%nat -> zones n = zones' n) ->
      Thermal.get_cpu_temperature zones = Thermal.get_cpu_temperature zones')
  /\ (forall zones : nat -> Thermal.zone_read,
      (forall n, (n < 10)%nat -> forall v, zones n <> Thermal.ZoneValue v) ->
      Thermal.get_cpu_temperature zones = (-1)%float).
Proof.
  split.
  - intros zones zones' Hagree. unfold Thermal.get_cpu_temperature.
    apply ThermalFacts.probe_ext. intros j Hj. apply Hagree. lia.
  - intros zones Hnone. unfold Thermal.get_cpu_temperature.
    apply ThermalFacts.probe_none. intros j Hj v. apply Hnone. lia.
Qed.

Lemma thermal_probe_bounded_witness :
  Thermal.get_cpu_temperature
    (fun n => if Nat.eqb n 10 then Thermal.ZoneValue 45000
              else Thermal.ZoneUnopenable)
  = (-1)%float.
Proof.
  apply (proj2 thermal_probe_bounded).
  intros n Hn v.
  destruct (Nat.eqb_spec n 10) as [-> | _]; [lia | discriminate].
Defined.

(** X7: the temperature reader returns the reading of the first zone, in
    the order 0 to 9, whose file opens and parses; zones that do not open
    or do not parse are passed over, and the zones after it are not
    looked at. *)
Theorem thermal_first_readable_zone :
  forall (zones : nat -> Thermal.zone_read) (k : nat) (v : Z),
    (k < 10)%nat ->
    zones k = Thermal.ZoneValue v ->
    (forall j, (j < k)%nat -> forall w, zones j <> Thermal.ZoneValue w) ->
    Thermal.get_cpu_temperature zones = Thermal.to_celsius v
    /\ forall zones' : nat -> Thermal.zone_read,
         (forall n, (n <= k)%nat -> zones' n = zones n) ->
         Thermal.get_cpu_temperature zones' = Thermal.to_celsius v.
Proof.
  intros zones k v Hk Hv Hbefore.
  assert (Hgen : forall zs : nat -> Thermal.zone_read,
             (forall n, (n <= k)%nat -> zs n = zones n) ->
             Thermal.get_cpu_temperature zs = Thermal.to_celsius v).
  { intros zs Hsame. unfold Thermal.get_cpu_temperature.
    apply (ThermalFacts.probe_first zs 10 0 k v); [lia | |].
    - rewrite Hsame by lia. exact Hv.
    - intros j Hj w. rewrite Hsame by lia. apply Hbefore. lia. }
  split; [apply Hgen; reflexivity | exact Hgen].
Qed.

Lemma thermal_first_readable_zone_witness :
  Thermal.get_cpu_temperature
    (fun n => match n with
              | 0%nat => Thermal.ZoneUnopenable
              | 1%nat => Thermal.ZoneUnparsed
              | 2%nat => Thermal.ZoneValue 45000
              | _ => Thermal.ZoneValue 99000
              end)
  = Thermal.to_celsius 45000.
Proof.
  refine (proj1 (thermal_first_readable_zone
                   (fun n => match n with
                             | 0%nat => Thermal.ZoneUnopenable
                             | 1%nat => Thermal.ZoneUnparsed
                             | 2%nat => Thermal.ZoneValue 45000
                             | _ => Thermal.ZoneValue 99000
                             end) 2%nat 45000 _ _ _)).
  - lia.
  - reflexivity.
  - intros j Hj w. destruct j as [| [| j]]; [discriminate | discriminate | lia].
Defined.



(** X9: [main] prints the temperature exactly when the first readable zone
    holds a reading that is not negative: a negative reading (a [long] in
    range) gives a negative value, and no readable zone gives -1.0, and
    both are shown as "Not available". *)
Theorem thermal_shown_iff_nonnegative :
  (forall (zones : nat -> Thermal.zone_read) (k : nat) (v : Z),
      (k < 10)%nat ->
      zones k = Thermal.ZoneValue v ->
      (forall j, (j < k)%nat -> forall w, zones j <> Thermal.ZoneValue w) ->
      - 2 ^ 63 <= v < 2 ^ 63 ->
      Thermal.temperature_shown (Thermal.get_cpu_temperature zones)
      = (0 <=? v))
  /\ (forall zones : nat -> Thermal.zone_read,
      (forall n, (n < 10)%nat -> forall v, zones n <> Thermal.ZoneValue v) ->
      Thermal.temperature_shown (Thermal.get_cpu_temperature zones) = false).
Proof.
  split.
  - intros zones k v Hk Hv Hbefore Hrange.
    unfold Thermal.get_cpu_temperature.
    rewrite (ThermalFacts.probe_first zones 10 0 k v); [| lia | exact Hv |].
    + apply ThermalFacts.shown_to_celsius, Hrange.
    + intros j Hj w. apply Hbefore. lia.
  - intros zones Hnone. unfold Thermal.get_cpu_temperature.
    rewrite ThermalFacts.probe_none; [reflexivity |].
    intros j Hj v. apply Hnone. lia.
Qed.

Lemma thermal_shown_iff_nonnegative_witness :
  Thermal.temperature_shown
    (Thermal.get_cpu_temperature (fun _ => Thermal.ZoneValue (-5000)))
  = false
  /\ Thermal.temperature_shown
       (Thermal.get_cpu_temperature (fun _ => Thermal.ZoneUnparsed))
     = false.
Proof.
  split.
  - apply (proj1 thermal_shown_iff_nonnegative
             (fun _ => Thermal.ZoneValue (-5000)) 0%nat (-5000)).
    + lia.
    + reflexivity.
    + intros j Hj. lia.
    + vm_compute. split; [discriminate | reflexivity].
  - apply (proj2 thermal_shown_iff_nonnegative). intros n _ v. discriminate.
Defined.

(** ** Network counters *)

Module NetReadFacts.
Import Stdlib.Strings.Ascii.
Import NetRead.

Lemma back_snoc s c : back (s +:+ String c EmptyString) = Some c.
Proof.
  induction s as [| a s IH]; [reflexivity |].
  simpl. rewrite IH. destruct s; reflexivity.
Qed.

Lemma pop_back_snoc s c : pop_back (s +:+ String c EmptyString) = s.
Proof.
  induction s as [| a s IH]; [reflexivity |].
  simpl. rewrite IH. destruct s; reflexivity.
Qed.

(** The sample is built from the lines after the header. *)
Lemma get_network_stats_body (h1 h2 : dev_line) (body : list dev_line) :
  get_network_stats (Some (h1 :: h2 :: body)) = fold_left record_line body ∅.
Proof. reflexivity. Qed.

(** Lines that are not recorded under [name] leave its entry alone. *)
Lemma fold_record_other (lines : list dev_line) (name : string) :
  forall m : Net.net_stats,
    Forall (fun l => line_key l <> Some name) lines ->
    fold_left record_line lines m !! name = m !! name.
Proof.
  induction lines as [| l lines IH]; intros m Hall; [reflexivity |].
  inversion Hall as [| ? ? Hl Hrest]; subst. simpl.
  rewrite IH by exact Hrest.
  destruct l as [| n rx tx]; [reflexivity |].
  simpl in Hl. simpl. apply lookup_insert_ne. congruence.
Qed.

Lemma fold_record_app (xs ys : list dev_line) (m : Net.net_stats) :
  fold_left record_line (xs ++ ys) m
  = fold_left record_line ys (fold_left record_line xs m).
Proof. apply fold_left_app. Qed.

(** The loopback entry apart, the map built does not depend on the
    loopback entry of the map it starts from. *)
Lemma fold_record_delete (lines : list dev_line) (name : string) :
  forall m m' : Net.net_stats,
    delete name m = delete name m' ->
    delete name (fold_left record_line lines m)
    = delete name (fold_left record_line lines m').
Proof.
  induction lines as [| l lines IH]; intros m m' Heq; [exact Heq |].
  simpl. apply IH. destruct l as [| n rx tx]; [exact Heq |].
  simpl. destruct (decide (strip_colon n = name)) as [-> | Hne].
  - rewrite !delete_insert_eq. exact Heq.
  - rewrite !delete_insert_ne by congruence. rewrite Heq. reflexivity.
Qed.

(** The rates do not depend on the loopback entry of the current sample. *)
Lemma total_rates_delete_lo (prev cur : Net.net_stats) :
  Net.total_rates prev cur = Net.total_rates prev (delete "lo"%string cur).
Proof.
  destruct (cur !! "lo"%string) as [c |] eqn:Hlo.
  - rewrite (NetFacts.total_rates_present prev cur "lo"%string c Hlo).
    apply NetFacts.add_interface_lo.
  - rewrite delete_id by exact Hlo. reflexivity.
Qed.

End NetReadFacts.

(** X10: the trailing colon of an interface name is removed, once: a word
    ending in a colon is recorded without it, one ending in two colons
    keeps one, and a word that does not end in a colon is recorded as it
    is. *)
Theorem net_strip_colon :
  (forall s : string, NetRead.strip_colon (s +:+ ":") = s)
  /\ (forall s : string, NetRead.strip_colon (s +:+ "::") = s +:+ ":")
  /\ (forall s : string,
        NetRead.back s <> Some NetRead.colon -> NetRead.strip_colon s = s).
Proof.
  split; [| split].
  - intros s. unfold NetRead.strip_colon.
    rewrite NetReadFacts.back_snoc. simpl.
    apply NetReadFacts.pop_back_snoc.
  - intros s. unfold NetRead.strip_colon.
    replace (s +:+ "::") with ((s +:+ ":") +:+ ":")
      by (unfold String.app; induction s as [| a s IH]; simpl;
          [reflexivity | f_equal; exact IH]).
    rewrite NetReadFacts.back_snoc. simpl.
    apply NetReadFacts.pop_back_snoc.
  - intros s Hs. unfold NetRead.strip_colon.
    destruct (NetRead.back s) as [c |]; [| reflexivity].
    destruct (Ascii.eqb_spec c NetRead.colon) as [-> | _]; [| reflexivity].
    exfalso. apply Hs. reflexivity.
Qed.

Lemma net_strip_colon_witness : NetRead.strip_colon "eth0" = "eth0"%string.
Proof.
  apply (proj2 (proj2 net_strip_colon)). vm_compute. discriminate.
Defined.

(** X11: when /proc/net/dev does not open, or holds no line after its two
    header lines, the sample is empty: [main] then reports the rates 0 and
    0 whatever the stored sample was, and the stored sample becomes empty
    (so that, by the rule for new interfaces, the next good sample is
    counted in full).  What the two header lines hold does not matter. *)
Theorem net_failed_read_wipes_state :
  (forall prev : Net.net_stats,
      Net.poll_network prev (NetRead.get_network_stats None) = ((0, 0), ∅))
  /\ (forall (prev : Net.net_stats) (lines : list NetRead.dev_line),
      (length lines <= 2)%nat ->
      Net.poll_network prev (NetRead.get_network_stats (Some lines))
      = ((0, 0), ∅))
  /\ (forall (h1 h2 h1' h2' : NetRead.dev_line) (body : list NetRead.dev_line),
      NetRead.get_network_stats (Some (h1 :: h2 :: body))
      = NetRead.get_network_stats (Some (h1' :: h2' :: body))).
Proof.
  split; [| split].
  - intros prev. unfold Net.poll_network. simpl.
    rewrite NetFacts.total_rates_empty. reflexivity.
  - intros prev lines Hlen. unfold NetRead.get_network_stats.
    rewrite drop_ge by exact Hlen. simpl. unfold Net.poll_network.
    rewrite NetFacts.total_rates_empty. reflexivity.
  - intros h1 h2 h1' h2' body. reflexivity.
Qed.

Lemma net_failed_read_wipes_state_witness :
  Net.poll_network {[ "eth0"%string := (1000, 500) ]}
    (NetRead.get_network_stats
       (Some [NetRead.LineFields "Inter-|" 0 0; NetRead.LineFields "face" 0 0]))
  = ((0, 0), ∅).
Proof.
  apply (proj1 (proj2 net_failed_read_wipes_state)). simpl. lia.
Defined.

(** X12: in the sample read from /proc/net/dev an interface has the
    counters of the last line recorded under its name, earlier lines of
    the same name being overwritten, and a name under which no line after
    the header is recorded is absent. *)
Theorem net_last_line_wins :
  (forall (h1 h2 : NetRead.dev_line) (pre post : list NetRead.dev_line)
          (n : string) (rx tx : Z),
      Forall (fun l => NetRead.line_key l <> Some (NetRead.strip_colon n)) post ->
      NetRead.get_network_stats
        (Some (h1 :: h2 :: pre ++ NetRead.LineFields n rx tx :: post))
        !! NetRead.strip_colon n
      = Some (rx, tx))
  /\ (forall (lines : list NetRead.dev_line) (name : string),
      Forall (fun l => NetRead.line_key l <> Some name) (drop 2 lines) ->
      NetRead.get_network_stats (Some lines) !! name = None).
Proof.
  split.
  - intros h1 h2 pre post n rx tx Hpost.
    rewrite NetReadFacts.get_network_stats_body.
    rewrite NetReadFacts.fold_record_app. simpl fold_left.
    rewrite NetReadFacts.fold_record_other by exact Hpost.
    apply lookup_insert_eq.
  - intros lines name Hall. unfold NetRead.get_network_stats.
    rewrite NetReadFacts.fold_record_other by exact Hall.
    apply lookup_empty.
Qed.

Lemma net_last_line_wins_witness :
  NetRead.get_network_stats
    (Some [NetRead.LineBlank; NetRead.LineBlank;
           NetRead.LineFields "eth0:" 1 2;
           NetRead.LineFields "eth0:" 30 40;
           NetRead.LineFields "wlan0:" 5 6])
    !! "eth0"%string
  = Some (30, 40)
  /\ NetRead.get_network_stats
       (Some [NetRead.LineBlank; NetRead.LineFields "eth0:" 1 2])
       !! "eth0"%string
     = None.
Proof.
  split.
  - apply (proj1 net_last_line_wins NetRead.LineBlank NetRead.LineBlank
             [NetRead.LineFields "eth0:" 1 2]
             [NetRead.LineFields "wlan0:" 5 6] "eth0:"%string 30 40).
    repeat constructor. vm_compute. discriminate.
  - apply (proj2 net_last_line_wins). simpl. constructor.
Defined.

(** X13: a line of /proc/net/dev recorded under the name "lo" changes
    nothing in the rates [main] computes, wherever it stands after the
    header and whatever counters it holds. *)
Theorem net_loopback_line_ignored :
  forall (prev : Net.net_stats) (h1 h2 : NetRead.dev_line)
         (pre post : list NetRead.dev_line) (n : string) (rx tx : Z),
    NetRead.strip_colon n = "lo"%string ->
    Net.total_rates prev
      (NetRead.get_network_stats
         (Some (h1 :: h2 :: pre ++ NetRead.LineFields n rx tx :: post)))
    = Net.total_rates prev
        (NetRead.get_network_stats (Some (h1 :: h2 :: pre ++ post))).
Proof.
  intros prev h1 h2 pre post n rx tx Hlo.
  rewrite NetReadFacts.total_rates_delete_lo.
  rewrite (NetReadFacts.total_rates_delete_lo prev
             (NetRead.get_network_stats (Some (h1 :: h2 :: pre ++ post)))).
  f_equal. rewrite !NetReadFacts.get_network_stats_body.
  rewrite !NetReadFacts.fold_record_app. simpl fold_left.
  apply NetReadFacts.fold_record_delete.
  rewrite Hlo. apply delete_insert_eq.
Qed.

Lemma net_loopback_line_ignored_witness :
  Net.total_rates {[ "eth0"%string := (1000, 500) ]}
    (NetRead.get_network_stats
       (Some [NetRead.LineBlank; NetRead.LineBlank;
              NetRead.LineFields "lo:" 9999 9999;
              NetRead.LineFields "eth0:" 1500 500]))
  = Net.total_rates {[ "eth0"%string := (1000, 500) ]}
      (NetRead.get_network_stats
         (Some [NetRead.LineBlank; NetRead.LineBlank;
                NetRead.LineFields "eth0:" 1500 500])).
Proof.
  apply (net_loopback_line_ignored _ NetRead.LineBlank NetRead.LineBlank
           [] [NetRead.LineFields "eth0:" 1500 500] "lo:"%string 9999 9999).
  reflexivity.
Defined.

Module NetSumFacts.
Import Net NetSum.

(** The rates depend on the stored sample only at the interfaces of the
    current one. *)
Lemma total_rates_prev_ext (prev prev' : net_stats) (cur : net_stats) :
  (forall name, is_Some (cur !! name) -> prev !! name = prev' !! name) ->
  total_rates prev cur = total_rates prev' cur.
Proof.
  induction cur as [| name c cur Hnone IH] using map_ind; intros Hext.
  - rewrite !NetFacts.total_rates_empty. reflexivity.
  - rewrite !NetFacts.total_rates_insert by exact Hnone.
    rewrite IH.
    + unfold add_interface, rx_delta, tx_delta, previous_of.
      rewrite (Hext name) by (rewrite lookup_insert_eq; eauto). reflexivity.
    + intros n Hn. apply Hext.
      destruct (decide (name = n)) as [-> | Hne].
      * rewrite lookup_insert_eq. eauto.
      * rewrite lookup_insert_ne by exact Hne. exact Hn.
Qed.

Lemma add_add_wrap (x y d1 d2 : Z) :
  U64.add (U64.add x d1) (U64.add y d2) = U64.add (U64.add x y) (d1 + d2).
Proof.
  unfold U64.add, U64.wrap.
  rewrite Zplus_mod_idemp_l, Zplus_mod_idemp_r, Zplus_mod_idemp_l.
  f_equal. lia.
Qed.

Lemma add_rates_zero : add_rates (0, 0) (0, 0) = (0, 0).
Proof. reflexivity. Qed.

End NetSumFacts.

(** X14: two polls in a row add up to one poll across both.  For three
    samples with the same interfaces in the last two, and counters that
    never decrease from one sample to the next, the rates of the first
    poll plus the rates of the second are the rates a single poll from the
    first sample to the third would give. *)
Theorem net_polls_add_up :
  forall a b c : Net.net_stats,
    dom b = dom c ->
    (forall (name : string) (rb tb rc tc : Z),
        b !! name = Some (rb, tb) -> c !! name = Some (rc, tc) ->
        0 <= fst (Net.previous_of a name) <= rb /\ rb <= rc < 2 ^ 64
        /\ 0 <= snd (Net.previous_of a name) <= tb /\ tb <= tc < 2 ^ 64) ->
    NetSum.add_rates (Net.total_rates a b) (Net.total_rates b c)
    = Net.total_rates a c.
Proof.
  intros a b c. revert b.
  induction c as [| name [rc tc] c Hnone IH] using map_ind; intros b Hdom Hmono.
  - rewrite dom_empty_L in Hdom. apply dom_empty_inv_L in Hdom. subst b.
    rewrite !NetFacts.total_rates_empty. reflexivity.
  - assert (Hin : name ∈ dom b)
      by (rewrite Hdom; apply elem_of_dom; rewrite lookup_insert_eq; eauto).
    apply elem_of_dom in Hin. destruct Hin as [[rb tb] Hb].
    set (b' := delete name b).
    assert (Hb' : b' !! name = None) by apply lookup_delete_eq.
    assert (Hbeq : b = <[name := (rb, tb)]> b')
      by (unfold b'; rewrite insert_delete_id by exact Hb; reflexivity).
    assert (Hdom' : dom b' = dom c).
    { unfold b'. rewrite dom_delete_L, Hdom, dom_insert_L.
      apply not_elem_of_dom in Hnone. apply set_eq. intros x.
      rewrite elem_of_difference, elem_of_union, elem_of_singleton.
      split; [intros [[-> | Hx] Hne]; [contradiction | exact Hx] |].
      intros Hx. split; [right; exact Hx | intros ->; contradiction]. }
    destruct (Hmono name rb tb rc tc Hb (lookup_insert_eq _ _ _))
      as (Hra & Hrc & Hta & Htc).
    assert (Hprev : Net.total_rates b c = Net.total_rates b' c).
    { apply NetSumFacts.total_rates_prev_ext. intros n [v Hn].
      unfold b'. rewrite lookup_delete_ne; [reflexivity |].
      intros ->. rewrite Hnone in Hn. discriminate Hn. }
    assert (HIH : NetSum.add_rates (Net.total_rates a b') (Net.total_rates b' c)
                  = Net.total_rates a c).
    { apply IH; [exact Hdom' |].
      intros n rb0 tb0 rc0 tc0 Hbn Hcn.
      assert (Hne : n <> name) by (intros ->; rewrite Hb' in Hbn; discriminate).
      apply (Hmono n rb0 tb0 rc0 tc0).
      - unfold b' in Hbn. rewrite lookup_delete_ne in Hbn by congruence.
        exact Hbn.
      - rewrite lookup_insert_ne by congruence. exact Hcn. }
    rewrite (NetFacts.total_rates_insert a c name (rc, tc) Hnone).
    rewrite (NetFacts.total_rates_insert b c name (rc, tc) Hnone).
    rewrite Hbeq at 1.
    rewrite (NetFacts.total_rates_insert a b' name (rb, tb) Hb').
    rewrite Hprev, <- HIH.
    unfold Net.add_interface.
    destruct (String.eqb name "lo"); [reflexivity |].
    unfold Net.rx_delta, Net.tx_delta, NetSum.add_rates. simpl fst. simpl snd.
    assert (Hpb : Net.previous_of b name = (rb, tb))
      by (unfold Net.previous_of; rewrite Hb; reflexivity).
    rewrite Hpb. simpl fst. simpl snd.
    assert (Hr : forall z, 0 <= z < 2 ^ 64 -> U64.in_range z)
      by (intros z Hz; exact Hz).
    rewrite !NetFacts.clamp_delta_increase by (try apply Hr; lia).
    rewrite !NetSumFacts.add_add_wrap. f_equal; f_equal; lia.
Qed.

Lemma net_polls_add_up_witness :
  NetSum.add_rates
    (Net.total_rates {[ "eth0"%string := (100, 10) ]}
                     {[ "eth0"%string := (150, 10) ]})
    (Net.total_rates {[ "eth0"%string := (150, 10) ]}
                     {[ "eth0"%string := (400, 90) ]})
  = Net.total_rates {[ "eth0"%string := (100, 10) ]}
                    {[ "eth0"%string := (400, 90) ]}.
Proof.
  apply net_polls_add_up.
  - rewrite !dom_singleton_L. reflexivity.
  - intros name rb tb rc tc Hb Hc.
    apply lookup_singleton_Some in Hb. destruct Hb as [<- Hb].
    apply lookup_singleton_Some in Hc. destruct Hc as [_ Hc].
    injection Hb as <- <-. injection Hc as <- <-.
    vm_compute. repeat split; discriminate.
Defined.

(** ** The bars of [main] *)

(** X15: [main] draws the bar of a metric exactly when the metric was
    read: the CPU bar when /proc/stat opened, the disk bar when [statvfs]
    succeeded, the RAM bar when /proc/meminfo opened and the loop ended
    with a total that is not zero. *)
Theorem main_bar_drawn_iff_read :
  (forall (st : Cpu.cpu_state) (src : Cpu.proc_stat),
      MainLoop.bar_drawn (Cpu.usage (Cpu.get_cpu_usage st src)) = true
      <-> src <> Cpu.StatUnopenable)
  /\ (forall r : option Disk.statvfs_t,
      MainLoop.bar_drawn (Disk.get_disk_usage r) = true <-> r <> None)
  /\ MainLoop.bar_drawn (Ram.get_ram_usage Ram.MemUnopenable) = false
  /\ (forall entries : list (string * Z * string),
      Forall (fun e => U64.in_range (snd (fst e))) entries ->
      (MainLoop.bar_drawn (Ram.get_ram_usage (Ram.MemOpened entries)) = true
       <-> fst (Ram.scan entries 0 0) <> 0)).
Proof.
  split; [| split; [| split]].
  - intros st [| p t]; split.
    + intros H. vm_compute in H. discriminate H.
    + intros H. exfalso. apply H. reflexivity.
    + intros _. discriminate.
    + intros _. apply CpuFacts.usage_after_read_nonneg.
  - intros [fs |]; split.
    + intros _. discriminate.
    + intros _. apply DiskFacts.usage_after_statvfs_nonneg.
    + intros H. vm_compute in H. discriminate H.
    + intros H. exfalso. apply H. reflexivity.
  - reflexivity.
  - intros entries Hrange. split.
    + intros Hd Hz. rewrite (RamFacts.usage_zero_total entries Hz) in Hd.
      vm_compute in Hd. discriminate Hd.
    + intros Hnz. exact (proj1 (RamFacts.usage_nonneg entries Hrange Hnz)).
Qed.

Lemma main_bar_drawn_iff_read_witness :
  MainLoop.bar_drawn
    (Ram.get_ram_usage
       (Ram.MemOpened [("MemTotal:"%string, 100, "kB"%string)])) = true.
Proof.
  apply (proj2 (proj2 (proj2 main_bar_drawn_iff_read))).
  - repeat constructor; unfold U64.modulus; simpl; lia.
  - discriminate.
Defined.

(** ** Formatting the uptime *)

Module FmtFacts.
Import Stdlib.Strings.Ascii.
Import Fmt.

(** For a time that is not negative the divisions are the usual ones. *)
Lemma fields_nonneg s :
  0 <= s ->
  days s = s / 86400
  /\ hours s = s mod 86400 / 3600
  /\ minutes s = s mod 3600 / 60
  /\ Z.rem s 60 = s mod 60.
Proof.
  intros Hs. unfold days, hours, minutes.
  assert (H1 : 0 <= s mod 86400 < 86400) by (apply Z.mod_pos_bound; lia).
  assert (H2 : 0 <= s mod 3600 < 3600) by (apply Z.mod_pos_bound; lia).
  rewrite !Z.rem_mod_nonneg by lia.
  rewrite !Z.quot_div_nonneg by lia. repeat split; reflexivity.
Qed.

(** The conversion of a small integer to [double] and back to [int]. *)
Lemma double_to_int_of_int z :
  0 <= z < 2 ^ 31 -> double_to_int (U64.to_double z) = Some z.
Proof.
  intros Hz. destruct (Z.eq_dec z 0) as [-> | Hnz]; [reflexivity |].
  assert (Hz' : 0 < z < 2 ^ 53)
    by (change (2 ^ 31) with 2147483648 in Hz;
        change (2 ^ 53) with 9007199254740992; lia).
  pose proof (Binary64Facts.mant_range z Hz') as HM.
  pose proof (Binary64Facts.expo_range z Hz') as HE.
  unfold double_to_int. rewrite (Binary64Facts.to_double_exact z Hz').
  rewrite Z2Pos.id by lia.
  assert (Hmag : (if 0 <=? Binary64.expo z
                  then Binary64.mant z * 2 ^ Binary64.expo z
                  else Binary64.mant z / 2 ^ (- Binary64.expo z)) = z).
  { rewrite Binary64Facts.mant_expo.
    destruct (Z.leb_spec 0 (Binary64.expo z)) as [H0 | Hneg].
    - replace (Binary64.expo z) with 0 by lia. simpl. lia.
    - apply Z.div_mul.
      assert (0 < 2 ^ (- Binary64.expo z)) by (apply Z.pow_pos_nonneg; lia).
      lia. }
  rewrite Hmag.
  destruct (Z.leb_spec (- 2 ^ 31) z) as [_ | H]; [| lia].
  destruct (Z.ltb_spec z (2 ^ 31)) as [_ | H]; [reflexivity | lia].
Qed.

Lemma pretty_N_char_digit x :
  (48 <= Ascii.nat_of_ascii (pretty_N_char x) <= 57)%nat.
Proof.
  unfold pretty_N_char. repeat case_match; vm_compute; lia.
Qed.

Lemma pretty_N_go_digits x :
  forall s, all_digits s -> all_digits (pretty_N_go x s).
Proof.
  induction (N.lt_wf_0 x) as [x _ IH]. intros s Hs.
  destruct (N.eq_dec x 0%N) as [-> | Hnz]; [rewrite pretty_N_go_0; exact Hs |].
  rewrite pretty_N_go_step by lia.
  apply IH; [apply N.div_lt; lia |].
  split; [apply pretty_N_char_digit | exact Hs].
Qed.

(** An [int] that is not negative is written with digits only. *)
Lemma pretty_Z_digits z : 0 <= z -> all_digits (pretty z).
Proof.
  intros Hz. destruct z as [| p | p];
    [split; [vm_compute; lia | exact I] | | lia].
  unfold pretty, pretty_Z, pretty, pretty_positive, pretty, pretty_N.
  destruct (decide (N.pos p = 0%N)); [discriminate |].
  apply pretty_N_go_digits. exact I.
Qed.

(** Two runs of digits followed by the same letter end at the same place. *)
Lemma digits_then_letter s1 :
  forall s2 t1 t2 c,
    all_digits s1 -> all_digits s2 ->
    ~ (48 <= Ascii.nat_of_ascii c <= 57)%nat ->
    s1 +:+ String c t1 = s2 +:+ String c t2 ->
    s1 = s2 /\ t1 = t2.
Proof.
  induction s1 as [| a s1 IH]; intros [| b s2] t1 t2 c H1 H2 Hc Heq;
    simpl in *.
  - injection Heq as ->. split; reflexivity.
  - injection Heq as -> _. destruct H2 as [Hb _]. contradiction.
  - injection Heq as -> _. destruct H1 as [Ha _]. contradiction.
  - injection Heq as -> Heq. destruct H1 as [_ H1], H2 as [_ H2].
    destruct (IH s2 t1 t2 c H1 H2 Hc Heq) as [-> ->]. split; reflexivity.
Qed.

(** The text of an uptime below one hour. *)
Lemma uptime_text_minutes s :
  0 <= s < 3600 ->
  uptime_text s
  = pretty (s / 60)
    +:+ String "m"%char (String " "%char (pretty (s mod 60) +:+ "s")).
Proof.
  intros Hs. unfold uptime_text.
  destruct (fields_nonneg s) as (Hd & Hh & Hm & Hr); [lia |].
  rewrite Hd, Hh, Hm, Hr.
  replace (s / 86400) with 0 by (Z.to_euclidean_division_equations; lia).
  replace (s mod 86400 / 3600) with 0
    by (Z.to_euclidean_division_equations; lia).
  replace (s mod 3600 / 60) with (s / 60)
    by (Z.to_euclidean_division_equations; lia).
  reflexivity.
Qed.

(** Below one hour the text determines the uptime. *)
Lemma uptime_text_minutes_inj s1 s2 :
  0 <= s1 < 3600 -> 0 <= s2 < 3600 ->
  uptime_text s1 = uptime_text s2 -> s1 = s2.
Proof.
  intros H1 H2 Heq.
  rewrite !uptime_text_minutes in Heq by assumption.
  assert (Hm : ~ (48 <= nat_of_ascii "m" <= 57)%nat) by (vm_compute; lia).
  assert (Hs : ~ (48 <= nat_of_ascii "s" <= 57)%nat) by (vm_compute; lia).
  assert (Hdig : forall s, 0 <= s -> all_digits (pretty (s / 60))
                                     /\ all_digits (pretty (s mod 60))).
  { intros s Hs0.
    split; apply pretty_Z_digits; Z.to_euclidean_division_equations; lia. }
  apply digits_then_letter in Heq as [Hmin Hrest];
    [| apply Hdig; lia | apply Hdig; lia | exact Hm].
  injection Hrest as Hrest.
  apply digits_then_letter in Hrest as [Hsec _];
    [| apply Hdig; lia | apply Hdig; lia | exact Hs].
  apply (inj pretty) in Hmin. apply (inj pretty) in Hsec.
  Z.to_euclidean_division_equations. lia.
Qed.

End FmtFacts.

(** X16: for an uptime that is not negative, the days, the hours, the
    minutes and the seconds that [format_uptime] computes split it
    exactly, the hours below 24 and the minutes and seconds below 60. *)
Theorem uptime_fields_split :
  forall total_seconds : Z,
    0 <= total_seconds ->
    Fmt.days total_seconds * 86400 + Fmt.hours total_seconds * 3600
      + Fmt.minutes total_seconds * 60 + Z.rem total_seconds 60
    = total_seconds
    /\ 0 <= Fmt.days total_seconds
    /\ 0 <= Fmt.hours total_seconds < 24
    /\ 0 <= Fmt.minutes total_seconds < 60
    /\ 0 <= Z.rem total_seconds 60 < 60.
Proof.
  intros s Hs.
  destruct (FmtFacts.fields_nonneg s Hs) as (-> & -> & -> & ->).
  Z.to_euclidean_division_equations. lia.
Qed.

Lemma uptime_fields_split_witness :
  Fmt.days 90000 * 86400 + Fmt.hours 90000 * 3600
    + Fmt.minutes 90000 * 60 + Z.rem 90000 60 = 90000.
Proof.
  apply (uptime_fields_split 90000). lia.
Defined.

(** X17: below one hour the text of an uptime tells it to the second: two
    uptimes from 0 to 3599 seconds with the same text are equal.  From one
    hour on the seconds are left out: the text is that of the uptime
    rounded down to the minute. *)
Theorem uptime_text_precision :
  (forall s1 s2 : Z,
      0 <= s1 < 3600 -> 0 <= s2 < 3600 ->
      Fmt.uptime_text s1 = Fmt.uptime_text s2 -> s1 = s2)
  /\ (forall s : Z,
      3600 <= s -> Fmt.uptime_text s = Fmt.uptime_text (60 * (s / 60))).
Proof.
  split.
  - exact FmtFacts.uptime_text_minutes_inj.
  - intros s Hs. unfold Fmt.uptime_text.
    destruct (FmtFacts.fields_nonneg s) as (Hd & Hh & Hm & _); [lia |].
    destruct (FmtFacts.fields_nonneg (60 * (s / 60))) as (Hd' & Hh' & Hm' & _);
      [Z.to_euclidean_division_equations; lia |].
    assert (Ed : Fmt.days (60 * (s / 60)) = Fmt.days s)
      by (rewrite Hd, Hd'; Z.to_euclidean_division_equations; lia).
    assert (Eh : Fmt.hours (60 * (s / 60)) = Fmt.hours s)
      by (rewrite Hh, Hh'; Z.to_euclidean_division_equations; lia).
    assert (Em : Fmt.minutes (60 * (s / 60)) = Fmt.minutes s)
      by (rewrite Hm, Hm'; Z.to_euclidean_division_equations; lia).
    rewrite Ed, Eh, Em.
    destruct (Z.ltb_spec 0 (Fmt.days s)) as [_ | Hd0]; [reflexivity |].
    destruct (Z.ltb_spec 0 (Fmt.hours s)) as [_ | Hh0]; [reflexivity |].
    exfalso. rewrite Hd in Hd0. rewrite Hh in Hh0.
    Z.to_euclidean_division_equations. lia.
Qed.

Lemma uptime_text_precision_witness :
  (Fmt.uptime_text 59 = Fmt.uptime_text 59 -> 59 = 59)
  /\ Fmt.uptime_text 3661 = Fmt.uptime_text 3660.
Proof.
  split.
  - apply (proj1 uptime_text_precision 59 59); lia.
  - apply (proj2 uptime_text_precision 3661). lia.
Defined.

(** X18: for a whole number of seconds from 0 up to the largest [int],
    given as a [double], [format_uptime] formats that number: the
    conversion to [int] gives it back. *)
Theorem format_uptime_of_whole_seconds :
  forall z : Z,
    0 <= z < 2 ^ 31 ->
    Fmt.format_uptime (U64.to_double z) = Some (Fmt.uptime_text z).
Proof.
  intros z Hz. unfold Fmt.format_uptime.
  rewrite FmtFacts.double_to_int_of_int by exact Hz. reflexivity.
Qed.

Lemma format_uptime_of_whole_seconds_witness :
  Fmt.format_uptime 90%float = Some "1m 30s"%string
  /\ Fmt.format_uptime 3661%float = Some "1h 1m"%string
  /\ Fmt.format_uptime 90000%float = Some "1d 1h 0m"%string.
Proof.
  assert (H : forall z, 0 <= z < 2 ^ 31 ->
                Fmt.format_uptime (U64.to_double z) = Some (Fmt.uptime_text z))
    by exact format_uptime_of_whole_seconds.
  split; [| split].
  - change 90%float with (U64.to_double 90). rewrite H by (vm_compute; split; [discriminate | reflexivity]).
    vm_compute. reflexivity.
  - change 3661%float with (U64.to_double 3661). rewrite H by (vm_compute; split; [discriminate | reflexivity]).
    vm_compute. reflexivity.
  - change 90000%float with (U64.to_double 90000). rewrite H by (vm_compute; split; [discriminate | reflexivity]).
    vm_compute. reflexivity.
Defined.

(** ** [format_bytes] *)

Module FmtBytesFacts.
Import Binary64 Binary64Facts Binary64More FmtBytes.

Lemma append_assoc (a b c : string) : (a +:+ b) +:+ c = a +:+ (b +:+ c).
Proof.
  induction a as [| ch a IH]; [reflexivity |].
  change (String ch ((a +:+ b) +:+ c) = String ch (a +:+ (b +:+ c))).
  rewrite IH. reflexivity.
Qed.

Lemma scale_eq (fuel : nat) (v : float) (k : Z) :
  scale fuel v k
  = if PrimFloat.leb 1024%float v && (k <? 4) then
      match fuel with
      | O => None
      | S fuel' => scale fuel' (PrimFloat.div v 1024%float) (k + 1)
      end
    else Some (v, k).
Proof. destruct fuel; reflexivity. Qed.

(** Zero is not scaled. *)
Lemma scale_zero (fuel : nat) (v : float) (k : Z) :
  Prim2SF v = S754_zero false -> scale fuel v k = Some (v, k).
Proof.
  intros Hv. rewrite scale_eq, leb_spec, Hv. reflexivity.
Qed.

(** The loop on a normal number: [n] exact divisions, where [n] is the
    number of times the test holds. *)
Lemma scale_finite (fuel : nat) :
  forall (v : float) (M E k n : Z),
    2 ^ 52 <= M < 2 ^ 53 -> -900 + 10 * n <= E <= 900 ->
    Prim2SF v = S754_finite false (Z.to_pos M) E ->
    0 <= n -> k + n <= 4 ->
    (n = 0 \/ -52 + 10 * n <= E) ->
    (E - 10 * n < -42 \/ k + n = 4) ->
    (Z.to_nat n <= fuel)%nat ->
    exists v' : float,
      scale fuel v k = Some (v', k + n)
      /\ Prim2SF v' = S754_finite false (Z.to_pos M) (E - 10 * n).
Proof.
  induction fuel as [| fuel IH]; intros v M E k n HM HE Hv Hn Hk Hgo Hstop Hf;
    rewrite scale_eq, (leb_1024 v M E HM Hv).
  - assert (n = 0) by lia. subst n.
    replace ((-42 <=? E) && (k <? 4)) with false
      by (symmetry; apply andb_false_iff; rewrite Z.leb_gt, Z.ltb_ge; lia).
    exists v. rewrite Z.add_0_r, Z.sub_0_r. split; [reflexivity | exact Hv].
  - destruct (Z.eq_dec n 0) as [-> | Hn0].
    + replace ((-42 <=? E) && (k <? 4)) with false
        by (symmetry; apply andb_false_iff; rewrite Z.leb_gt, Z.ltb_ge; lia).
      exists v. rewrite Z.add_0_r, Z.sub_0_r. split; [reflexivity | exact Hv].
    + replace ((-42 <=? E) && (k <? 4)) with true
        by (symmetry; apply andb_true_iff; rewrite Z.leb_le, Z.ltb_lt; lia).
      destruct (IH (PrimFloat.div v 1024%float) M (E - 10) (k + 1) (n - 1))
        as (v' & Hs & Hv'); try lia.
      * apply div_1024_exact; [exact HM | lia | exact Hv].
      * exists v'. rewrite Hs.
        replace (k + 1 + (n - 1)) with (k + n) by lia.
        replace (E - 10 - 10 * (n - 1)) with (E - 10 * n) in Hv' by lia.
        split; [reflexivity | exact Hv'].
Qed.

(** The unit in terms of the number of binary digits. *)
Lemma largest_unit_digits (bytes : Z) :
  0 < bytes -> largest_unit bytes = Z.min 4 ((Zdigits2 bytes - 1) / 10).
Proof.
  intros Hb. unfold largest_unit.
  destruct (Zdigits2_bounds bytes Hb) as [Hd [Hlo Hhi]].
  change 1024 with (2 ^ 10). change ((2 ^ 10) ^ 2) with (2 ^ 20).
  change ((2 ^ 10) ^ 3) with (2 ^ 30). change ((2 ^ 10) ^ 4) with (2 ^ 40).
  assert (Hlt : forall t, 0 <= t -> bytes < 2 ^ t -> Zdigits2 bytes <= t)
    by (intros t Ht Hbt; apply Zdigits2_le; lia).
  assert (Hge : forall t, 0 <= t -> 2 ^ t <= bytes -> t < Zdigits2 bytes)
    by (intros t Ht Hbt; apply Zdigits2_ge; lia).
  destruct (Z.ltb_spec bytes (2 ^ 10)) as [H1 | H1].
  { apply Hlt in H1; [| lia].
    assert ((Zdigits2 bytes - 1) / 10 = 0) by (apply Z.div_small; lia). lia. }
  apply Hge in H1; [| lia].
  destruct (Z.ltb_spec bytes (2 ^ 20)) as [H2 | H2].
  { apply Hlt in H2; [| lia].
    assert ((Zdigits2 bytes - 1) / 10 = 1)
      by (symmetry; apply (Z.div_unique _ _ _ (Zdigits2 bytes - 11)); lia).
    lia. }
  apply Hge in H2; [| lia].
  destruct (Z.ltb_spec bytes (2 ^ 30)) as [H3 | H3].
  { apply Hlt in H3; [| lia].
    assert ((Zdigits2 bytes - 1) / 10 = 2)
      by (symmetry; apply (Z.div_unique _ _ _ (Zdigits2 bytes - 21)); lia).
    lia. }
  apply Hge in H3; [| lia].
  destruct (Z.ltb_spec bytes (2 ^ 40)) as [H4 | H4].
  { apply Hlt in H4; [| lia].
    assert ((Zdigits2 bytes - 1) / 10 = 3)
      by (symmetry; apply (Z.div_unique _ _ _ (Zdigits2 bytes - 31)); lia).
    lia. }
  apply Hge in H4; [| lia].
  assert (4 <= (Zdigits2 bytes - 1) / 10)
    by (apply Z.div_le_lower_bound; lia).
  lia.
Qed.

Lemma largest_unit_range (bytes : Z) : 0 <= largest_unit bytes <= 4.
Proof.
  unfold largest_unit.
  repeat (match goal with |- context [if ?b then _ else _] => destruct b end);
    lia.
Qed.

Lemma to_double_zero : Prim2SF (U64.to_double 0) = S754_zero false.
Proof. vm_compute. reflexivity. Qed.

(** The loop on the conversion of a 64-bit count. *)
Lemma scale_of_bytes (fuel : nat) (bytes : Z) :
  0 <= bytes < 2 ^ 64 ->
  (Z.to_nat (largest_unit bytes) <= fuel)%nat ->
  exists value : float,
    scale fuel (U64.to_double bytes) 0 = Some (value, largest_unit bytes)
    /\ Prim2SF value
       = scaled (largest_unit bytes) (Prim2SF (U64.to_double bytes)).
Proof.
  intros Hb Hf.
  destruct (Z.eq_dec bytes 0) as [-> | Hb0].
  { exists (U64.to_double 0). rewrite (scale_zero _ _ _ to_double_zero).
    split; [reflexivity |]. rewrite to_double_zero. reflexivity. }
  pose proof (largest_unit_range bytes) as Hk.
  assert (Hpos : 0 < bytes) by lia.
  pose proof (largest_unit_digits bytes Hpos) as Hku.
  destruct (Zdigits2_bounds bytes Hpos) as [Hd [Hlo Hhi]].
  pose proof (Z.div_mod (Zdigits2 bytes - 1) 10 ltac:(lia)) as Hdm.
  pose proof (Z.mod_pos_bound (Zdigits2 bytes - 1) 10 ltac:(lia)) as Hmod.
  destruct (Z.lt_ge_cases bytes (2 ^ 53)) as [Hsmall | Hbig].
  - pose proof (to_double_exact bytes (conj Hpos Hsmall)) as Hv.
    pose proof (mant_range bytes (conj Hpos Hsmall)) as HM.
    pose proof (expo_range bytes (conj Hpos Hsmall)) as HE.
    destruct (scale_finite fuel (U64.to_double bytes) (mant bytes)
                (expo bytes) 0 (largest_unit bytes))
      as (v' & Hs & Hv'); try lia; try assumption.
    + unfold expo. lia.
    + unfold expo. lia.
    + exists v'. rewrite Hs, Hv', Hv. split; reflexivity.
  - destruct (to_double_big bytes ltac:(lia)) as (M & E & HM & HE & Hv).
    assert (H4 : largest_unit bytes = 4).
    { assert (53 < Zdigits2 bytes) by (apply Zdigits2_ge; lia).
      assert (5 <= (Zdigits2 bytes - 1) / 10)
        by (apply Z.div_le_lower_bound; lia).
      lia. }
    destruct (scale_finite fuel (U64.to_double bytes) M E 0
                (largest_unit bytes))
      as (v' & Hs & Hv'); try lia; try assumption.
    exists v'. rewrite Hs, Hv', Hv. split; reflexivity.
Qed.

Lemma div_nearest_even_scale (n d c : Z) :
  0 < d -> 0 < c ->
  div_nearest_even (n * c) (d * c) = div_nearest_even n d.
Proof.
  intros Hd Hc. unfold div_nearest_even.
  rewrite Z.div_mul_cancel_r, Z.mul_mod_distr_r by lia.
  replace (2 * (n mod d * c) ?= d * c) with (2 * (n mod d) ?= d);
    [reflexivity |].
  destruct (Z.compare_spec (2 * (n mod d)) d);
    destruct (Z.compare_spec (2 * (n mod d * c)) (d * c));
    try reflexivity; nia.
Qed.

Lemma div_nearest_even_bounds (n d : Z) :
  0 < d -> n / d <= div_nearest_even n d <= n / d + 1.
Proof.
  intros Hd. unfold div_nearest_even.
  destruct (2 * (n mod d) ?= d); [destruct (Z.even (n / d)) | |]; lia.
Qed.

Lemma div_nearest_even_exact (q d : Z) :
  0 < d -> div_nearest_even (q * d) d = q.
Proof.
  intros Hd. unfold div_nearest_even.
  rewrite Z.div_mul, Z.mod_mul by lia.
  destruct (Z.compare_spec (2 * 0) d); lia.
Qed.

(** The text of the scaled value, below [2^53]: the count times 100 over
    the unit, to the nearest. *)
Lemma fixed2_of_bytes (bytes : Z) (value : float) :
  0 <= bytes < 2 ^ 53 ->
  Prim2SF value
  = scaled (largest_unit bytes) (Prim2SF (U64.to_double bytes)) ->
  fixed2 value
  = decimal2 (div_nearest_even (100 * bytes) (1024 ^ largest_unit bytes)).
Proof.
  intros Hb Hv. unfold fixed2. rewrite Hv.
  pose proof (largest_unit_range bytes) as Hk.
  assert (Hu : 0 < 1024 ^ largest_unit bytes)
    by (apply Z.pow_pos_nonneg; lia).
  destruct (Z.eq_dec bytes 0) as [-> | Hb0].
  { rewrite to_double_zero. simpl scaled.
    change (100 * 0) with (0 * 1024 ^ largest_unit 0).
    rewrite div_nearest_even_exact by exact Hu. vm_compute. reflexivity. }
  assert (Hpos : 0 < bytes) by lia.
  rewrite (to_double_exact bytes) by lia. simpl scaled.
  pose proof (mant_range bytes (conj Hpos (proj2 Hb))) as HM.
  pose proof (expo_range bytes (conj Hpos (proj2 Hb))) as HE.
  pose proof (largest_unit_digits bytes Hpos) as Hku.
  destruct (Zdigits2_bounds bytes Hpos) as [Hd [Hlo Hhi]].
  pose proof (Z.div_mod (Zdigits2 bytes - 1) 10 ltac:(lia)) as Hdm.
  pose proof (Z.mod_pos_bound (Zdigits2 bytes - 1) 10 ltac:(lia)) as Hmod.
  assert (Hneg : expo bytes - 10 * largest_unit bytes < 0).
  { unfold expo in *. lia. }
  unfold hundredths.
  destruct (Z.leb_spec 0 (expo bytes - 10 * largest_unit bytes)); [lia |].
  rewrite Z2Pos.id by lia. rewrite mant_expo.
  replace (- (expo bytes - 10 * largest_unit bytes))
    with (10 * largest_unit bytes + - expo bytes) by lia.
  rewrite Z.pow_add_r, Z.pow_mul_r by lia.
  change (2 ^ 10) with 1024.
  rewrite Z.mul_assoc.
  rewrite div_nearest_even_scale
    by (try exact Hu; apply Z.pow_pos_nonneg; lia).
  reflexivity.
Qed.

(** The whole function below [2^53]. *)
Lemma format_bytes_exact (fuel : nat) (bytes : Z) :
  0 <= bytes < 2 ^ 53 ->
  (Z.to_nat (largest_unit bytes) <= fuel)%nat ->
  exists unit : string,
    units !! Z.to_nat (largest_unit bytes) = Some unit
    /\ format_bytes fuel bytes
       = Some (decimal2 (div_nearest_even (100 * bytes)
                           (1024 ^ largest_unit bytes))
               +:+ " " +:+ unit).
Proof.
  intros Hb Hf.
  destruct (scale_of_bytes fuel bytes ltac:(lia) Hf) as (value & Hs & Hv).
  pose proof (largest_unit_range bytes) as Hk.
  assert (Hlen : (Z.to_nat (largest_unit bytes) < length units)%nat)
    by (simpl; lia).
  destruct (lookup_lt_is_Some_2 _ _ Hlen) as [unit Hunit].
  exists unit. split; [exact Hunit |].
  unfold format_bytes. rewrite Hs, Hunit.
  rewrite (fixed2_of_bytes bytes value Hb Hv). reflexivity.
Qed.

End FmtBytesFacts.

(** X19: [format_bytes] on any 64-bit count.  With fuel for as many
    iterations as the unit it selects (four are always enough) the loop
    ends, the unit is the largest of B, KB, MB, GB and TB that does not
    exceed the count, so the index stays inside the array of units, and
    the value printed is the count's [double] with its exponent lowered
    by ten per unit: no division by 1024.0 rounds. *)
Theorem format_bytes_unit (fuel : nat) (bytes : Z) :
  0 <= bytes < 2 ^ 64 ->
  (Z.to_nat (FmtBytes.largest_unit bytes) <= fuel)%nat ->
  (FmtBytes.largest_unit bytes <= 4)
  /\ exists (value : float) (unit : string),
       FmtBytes.scale fuel (U64.to_double bytes) 0
       = Some (value, FmtBytes.largest_unit bytes)
       /\ Prim2SF value
          = FmtBytes.scaled (FmtBytes.largest_unit bytes)
              (Prim2SF (U64.to_double bytes))
       /\ FmtBytes.units !! Z.to_nat (FmtBytes.largest_unit bytes)
          = Some unit
       /\ FmtBytes.format_bytes fuel bytes
          = Some (FmtBytes.fixed2 value +:+ " " +:+ unit).
Proof.
  intros Hb Hf.
  pose proof (FmtBytesFacts.largest_unit_range bytes) as Hk.
  split; [lia |].
  destruct (FmtBytesFacts.scale_of_bytes fuel bytes Hb Hf)
    as (value & Hs & Hv).
  assert (Hlen : (Z.to_nat (FmtBytes.largest_unit bytes)
                  < length FmtBytes.units)%nat) by (simpl; lia).
  destruct (lookup_lt_is_Some_2 _ _ Hlen) as [unit Hunit].
  exists value, unit.
  split; [exact Hs |]. split; [exact Hv |]. split; [exact Hunit |].
  unfold FmtBytes.format_bytes. rewrite Hs, Hunit. reflexivity.
Qed.

Lemma format_bytes_unit_witness :
  FmtBytes.largest_unit 18446744073709551615 <= 4
  /\ exists (value : float) (unit : string),
       FmtBytes.scale 4 (U64.to_double 18446744073709551615) 0
       = Some (value, FmtBytes.largest_unit 18446744073709551615)
       /\ Prim2SF value
          = FmtBytes.scaled (FmtBytes.largest_unit 18446744073709551615)
              (Prim2SF (U64.to_double 18446744073709551615))
       /\ FmtBytes.units
            !! Z.to_nat (FmtBytes.largest_unit 18446744073709551615)
          = Some unit
       /\ FmtBytes.format_bytes 4 18446744073709551615
          = Some (FmtBytes.fixed2 value +:+ " " +:+ unit).
Proof.
  apply (format_bytes_unit 4 18446744073709551615).
  - split; [discriminate | reflexivity].
  - vm_compute. lia.
Defined.

(** X20: below [2^53] bytes the text of [format_bytes] is the count
    times 100, divided by the unit ([1024^k] for the [k]th unit) to the
    nearest integer with a tie going to the even one, written with two
    decimals and followed by a space and the unit. *)
Theorem format_bytes_rounds_to_nearest (fuel : nat) (bytes : Z) :
  0 <= bytes < 2 ^ 53 ->
  (Z.to_nat (FmtBytes.largest_unit bytes) <= fuel)%nat ->
  exists unit : string,
    FmtBytes.units !! Z.to_nat (FmtBytes.largest_unit bytes) = Some unit
    /\ FmtBytes.format_bytes fuel bytes
       = Some (FmtBytes.decimal2
                 (FmtBytes.div_nearest_even (100 * bytes)
                    (1024 ^ FmtBytes.largest_unit bytes))
               +:+ " " +:+ unit).
Proof.
  intros Hb Hf. apply FmtBytesFacts.format_bytes_exact; assumption.
Qed.

Lemma format_bytes_rounds_to_nearest_witness :
  (exists unit : string,
     FmtBytes.units !! Z.to_nat (FmtBytes.largest_unit 1536) = Some unit
     /\ FmtBytes.format_bytes 4 1536
        = Some (FmtBytes.decimal2
                  (FmtBytes.div_nearest_even (100 * 1536)
                     (1024 ^ FmtBytes.largest_unit 1536))
                +:+ " " +:+ unit))
  /\ FmtBytes.format_bytes 4 1536 = Some "1.50 KB"%string
  /\ FmtBytes.format_bytes 4 1234567890 = Some "1.15 GB"%string.
Proof.
  split; [| split; vm_compute; reflexivity].
  apply (format_bytes_rounds_to_nearest 4 1536).
  - split; [discriminate | reflexivity].
  - vm_compute. lia.
Defined.

(** X21: a count below 1024 is printed as it is, with [.00 B] after it,
    and the loop is not entered: no fuel is needed. *)
Theorem format_bytes_below_1024 (fuel : nat) (bytes : Z) :
  0 <= bytes < 1024 ->
  FmtBytes.format_bytes fuel bytes = Some (pretty bytes +:+ ".00 B").
Proof.
  intros Hb.
  assert (Hk : FmtBytes.largest_unit bytes = 0).
  { unfold FmtBytes.largest_unit.
    destruct (Z.ltb_spec bytes 1024); [reflexivity | lia]. }
  destruct (FmtBytesFacts.format_bytes_exact fuel bytes)
    as (unit & Hunit & Hfmt); [lia | rewrite Hk; simpl; lia |].
  rewrite Hk in Hunit, Hfmt. simpl in Hunit.
  injection Hunit as <-. rewrite Hfmt. f_equal.
  change (1024 ^ 0) with 1.
  replace (100 * bytes) with (100 * bytes * 1) by lia.
  rewrite FmtBytesFacts.div_nearest_even_exact by lia.
  unfold FmtBytes.decimal2.
  rewrite (Z.mul_comm 100 bytes), Z.div_mul, Z.mod_mul by lia.
  change (FmtBytes.two_digits 0) with "00"%string.
  rewrite FmtBytesFacts.append_assoc. reflexivity.
Qed.

Lemma format_bytes_below_1024_witness :
  FmtBytes.format_bytes 0 1023 = Some (pretty 1023 +:+ ".00 B")
  /\ FmtBytes.format_bytes 0 1023 = Some "1023.00 B"%string.
Proof.
  split; [| vm_compute; reflexivity].
  apply (format_bytes_below_1024 0 1023). lia.
Defined.

(** X22: from 1024 bytes to below [1024^5] the number [format_bytes]
    prints lies between 1.00 and 1024.00, both included: the upper end is
    reached when the value is just below 1024 in its unit and is rounded
    up, as for 1048575 bytes ([1024.00 KB]). *)
Theorem format_bytes_number_range (fuel : nat) (bytes : Z) :
  1024 <= bytes < 1024 ^ 5 ->
  (4 <= fuel)%nat ->
  exists (h : Z) (unit : string),
    FmtBytes.format_bytes fuel bytes
    = Some (FmtBytes.decimal2 h +:+ " " +:+ unit)
    /\ 100 <= h <= 102400.
Proof.
  intros Hb Hf.
  pose proof (FmtBytesFacts.largest_unit_range bytes) as Hk.
  destruct (FmtBytesFacts.format_bytes_exact fuel bytes)
    as (unit & _ & Hfmt);
    [change (1024 ^ 5) with (2 ^ 50) in Hb; lia | lia |].
  eexists _, unit. split; [exact Hfmt |].
  set (k := FmtBytes.largest_unit bytes) in *.
  assert (Hu : 0 < 1024 ^ k) by (apply Z.pow_pos_nonneg; lia).
  assert (Hbetween : 1024 ^ k <= bytes < 1024 * 1024 ^ k).
  { subst k. unfold FmtBytes.largest_unit.
    destruct (Z.ltb_spec bytes 1024); [lia |].
    destruct (Z.ltb_spec bytes (1024 ^ 2)); [lia |].
    destruct (Z.ltb_spec bytes (1024 ^ 3)); [lia |].
    destruct (Z.ltb_spec bytes (1024 ^ 4)); lia. }
  pose proof (FmtBytesFacts.div_nearest_even_bounds (100 * bytes) (1024 ^ k) Hu)
    as Hn.
  assert (100 <= 100 * bytes / 1024 ^ k)
    by (apply Z.div_le_lower_bound; lia).
  assert (100 * bytes / 1024 ^ k < 102400)
    by (apply Z.div_lt_upper_bound; lia).
  lia.
Qed.

Lemma format_bytes_number_range_witness :
  (exists (h : Z) (unit : string),
     FmtBytes.format_bytes 4 1048575
     = Some (FmtBytes.decimal2 h +:+ " " +:+ unit)
     /\ 100 <= h <= 102400)
  /\ FmtBytes.format_bytes 4 1048575 = Some "1024.00 KB"%string
  /\ FmtBytes.format_bytes 4 1048576 = Some "1.00 MB"%string.
Proof.
  split; [| split; vm_compute; reflexivity].
  apply (format_bytes_number_range 4 1048575); [| lia].
  split; [discriminate | reflexivity].
Defined.

(** ** [draw_progress_bar] and [draw_box] *)

Module BarFacts.
Import Bar.

Lemma cells_lookup (blocks : Z) (i : nat) :
  cells blocks !! i
  = if decide (Z.of_nat i < bar_width) then
      Some (if Z.of_nat i <? blocks then Full else Empty)
    else None.
Proof.
  unfold cells. rewrite list_lookup_fmap.
  destruct (decide (Z.of_nat i < bar_width)) as [Hlt | Hge].
  - rewrite lookup_seqZ_lt by exact Hlt. reflexivity.
  - rewrite lookup_seqZ_ge by lia. reflexivity.
Qed.

(** The comparisons of a number that is not a NaN with 0.0 and 100.0. *)
Lemma ltb_0_leb (p : float) :
  Prim2SF p <> S754_nan ->
  PrimFloat.ltb p 0%float = false -> PrimFloat.leb 0%float p = true.
Proof.
  rewrite ltb_spec, leb_spec.
  replace (Prim2SF 0%float) with (S754_zero false)
    by (vm_compute; reflexivity).
  destruct (Prim2SF p) as [[|] | [|] | | [|] m e];
    unfold SFltb, SFleb, SFcompare; congruence.
Qed.

Lemma ltb_100_leb (p : float) :
  Prim2SF p <> S754_nan ->
  PrimFloat.ltb 100%float p = false -> PrimFloat.leb p 100%float = true.
Proof.
  rewrite ltb_spec, leb_spec.
  replace (Prim2SF 100%float)
    with (S754_finite false 7036874417766400 (-46))
    by (vm_compute; reflexivity).
  destruct (Prim2SF p) as [[|] | [|] | | [|] m e];
    unfold SFltb, SFleb, SFcompare; intros Hnan Hlt.
  1-3: reflexivity.
  1: discriminate Hlt.
  1: exfalso; apply Hnan; reflexivity.
  1: reflexivity.
  revert Hlt. rewrite (Z.compare_antisym e (-46)).
  destruct (e ?= -46); cbn [CompOpp]; intros Hlt;
    [| reflexivity | discriminate Hlt].
  pose proof (Pos.compare_cont_antisym 7036874417766400 m Eq) as Hopp.
  cbn [CompOpp] in Hopp. rewrite <- Hopp. clear Hopp. revert Hlt.
  generalize (Pos.compare_cont Eq 7036874417766400 m).
  intros [| |]; cbn [CompOpp]; intros Hlt;
    [reflexivity | discriminate Hlt | reflexivity].
Qed.

End BarFacts.

Module BoxFacts.
Import Box.

Lemma fmap_bind {A B C : Type} (f : B -> C) (g : A -> list B) (l : list A) :
  f <$> (l ≫= g) = l ≫= (fun a => f <$> g a).
Proof.
  induction l as [| a l IH]; [reflexivity |].
  rewrite !bind_cons, fmap_app, IH. reflexivity.
Qed.

(** The cells [draw_box] writes to, in the order of the writes. *)
Lemma positions_eq (y x height width : Z) :
  position <$> draw_box y x height width
  = [ (y, x); (y, x + width - 1);
      (y + height - 1, x); (y + height - 1, x + width - 1) ]
    ++ (seqZ 1 (width - 2) ≫= fun i =>
          [ (y, x + i); (y + height - 1, x + i) ])
    ++ (seqZ 1 (height - 2) ≫= fun i =>
          [ (y + i, x); (y + i, x + width - 1) ]).
Proof.
  unfold draw_box. rewrite !fmap_app, !fmap_bind. reflexivity.
Qed.

Lemma elem_of_positions (y x height width : Z) (p : Z * Z) :
  p ∈ position <$> draw_box y x height width
  <-> p = (y, x) \/ p = (y, x + width - 1)
      \/ p = (y + height - 1, x) \/ p = (y + height - 1, x + width - 1)
      \/ (exists i, 1 <= i <= width - 2
                    /\ (p = (y, x + i) \/ p = (y + height - 1, x + i)))
      \/ (exists i, 1 <= i <= height - 2
                    /\ (p = (y + i, x) \/ p = (y + i, x + width - 1))).
Proof.
  rewrite positions_eq, !elem_of_app, !list_elem_of_bind.
  rewrite !elem_of_cons, elem_of_nil.
  split.
  - intros [[-> | [-> | [-> | [-> | []]]]] | [(i & Hp & Hi) | (i & Hp & Hi)]];
      auto 6.
    + apply elem_of_seqZ in Hi. rewrite !elem_of_cons, elem_of_nil in Hp.
      do 4 right. left. exists i. split; [lia | tauto].
    + apply elem_of_seqZ in Hi. rewrite !elem_of_cons, elem_of_nil in Hp.
      do 5 right. exists i. split; [lia | tauto].
  - intros [-> | [-> | [-> | [-> | [(i & Hi & Hp) | (i & Hi & Hp)]]]]];
      auto 8.
    + right. left. exists i. rewrite !elem_of_cons, elem_of_seqZ.
      split; [tauto | lia].
    + right. right. exists i. rewrite !elem_of_cons, elem_of_seqZ.
      split; [tauto | lia].
Qed.

(** No cell is written twice when the box has two rows and two columns
    at least. *)
Lemma positions_NoDup (y x height width : Z) :
  2 <= height -> 2 <= width ->
  NoDup (position <$> draw_box y x height width).
Proof.
  intros Hh Hw. rewrite positions_eq.
  assert (Hhor : forall p,
             p ∈ (seqZ 1 (width - 2) ≫= fun i =>
                    [ (y, x + i); (y + height - 1, x + i) ])
             -> exists i, 1 <= i <= width - 2
                          /\ (p = (y, x + i) \/ p = (y + height - 1, x + i))).
  { intros p (i & Hp & Hi)%list_elem_of_bind. apply elem_of_seqZ in Hi.
    rewrite !elem_of_cons, elem_of_nil in Hp. exists i. split; [lia | tauto]. }
  assert (Hver : forall p,
             p ∈ (seqZ 1 (height - 2) ≫= fun i =>
                    [ (y + i, x); (y + i, x + width - 1) ])
             -> exists i, 1 <= i <= height - 2
                          /\ (p = (y + i, x) \/ p = (y + i, x + width - 1))).
  { intros p (i & Hp & Hi)%list_elem_of_bind. apply elem_of_seqZ in Hi.
    rewrite !elem_of_cons, elem_of_nil in Hp. exists i. split; [lia | tauto]. }
  assert (Hcorner : forall r c : Z,
             (r = y \/ r = y + height - 1) -> (c = x \/ c = x + width - 1) ->
             (r, c) ∉ (seqZ 1 (width - 2) ≫= fun i =>
                         [ (y, x + i); (y + height - 1, x + i) ])
                      ++ (seqZ 1 (height - 2) ≫= fun i =>
                            [ (y + i, x); (y + i, x + width - 1) ])).
  { intros r c Hr Hc [Hin | Hin]%elem_of_app.
    - destruct (Hhor _ Hin) as (i & Hi & [Heq | Heq]);
        injection Heq as Hr' Hc'; lia.
    - destruct (Hver _ Hin) as (i & Hi & [Heq | Heq]);
        injection Heq as Hr' Hc'; lia. }
  change ([ (y, x); (y, x + width - 1);
            (y + height - 1, x); (y + height - 1, x + width - 1) ] ++ ?l)
    with ((y, x) :: (y, x + width - 1) :: (y + height - 1, x)
          :: (y + height - 1, x + width - 1) :: l).
  repeat (apply NoDup_cons; split).
  - rewrite !elem_of_cons. intros [Heq | [Heq | [Heq | Hin]]].
    + injection Heq as Hc. lia.
    + injection Heq as Hr. lia.
    + injection Heq as Hr Hc. lia.
    + revert Hin. apply Hcorner; lia.
  - rewrite !elem_of_cons. intros [Heq | [Heq | Hin]].
    + injection Heq as Hr Hc. lia.
    + injection Heq as Hr. lia.
    + revert Hin. apply Hcorner; lia.
  - rewrite !elem_of_cons. intros [Heq | Hin].
    + injection Heq as Hc. lia.
    + revert Hin. apply Hcorner; lia.
  - apply Hcorner; lia.
  - apply NoDup_app. split; [| split].
    + apply NoDup_bind; [| | apply NoDup_seqZ].
      * intros i1 i2 p _ _ Hp1 Hp2.
        rewrite !elem_of_cons, elem_of_nil in Hp1, Hp2.
        destruct Hp1 as [-> | [-> | []]];
          destruct Hp2 as [Heq | [Heq | []]]; injection Heq; lia.
      * intros i _. apply NoDup_cons. split; [| apply NoDup_singleton].
        rewrite list_elem_of_singleton. intros Heq. injection Heq. lia.
    + intros p Hin1 Hin2.
      destruct (Hhor _ Hin1) as (i & Hi & [-> | ->]);
        destruct (Hver _ Hin2) as (j & Hj & [Heq | Heq]);
        injection Heq; lia.
    + apply NoDup_bind; [| | apply NoDup_seqZ].
      * intros i1 i2 p _ _ Hp1 Hp2.
        rewrite !elem_of_cons, elem_of_nil in Hp1, Hp2.
        destruct Hp1 as [-> | [-> | []]];
          destruct Hp2 as [Heq | [Heq | []]]; injection Heq; lia.
      * intros i _. apply NoDup_cons. split; [| apply NoDup_singleton].
        rewrite list_elem_of_singleton. intros Heq. injection Heq. lia.
Qed.

End BoxFacts.

(** X23: the bar of [draw_progress_bar] always has 35 cells, the full ones
    first: as many as [filled_blocks], brought into 0..35.  A count that is
    negative or above 35 (it is computed before the percentage is brought
    into range) neither shortens nor lengthens the bar. *)
Theorem progress_bar_cells (blocks : Z) :
  let full := Z.to_nat (Z.max 0 (Z.min Bar.bar_width blocks)) in
  Bar.cells blocks
  = replicate full Bar.Full ++ replicate (35 - full)%nat Bar.Empty.
Proof.
  intros full. apply list_eq. intros i.
  rewrite BarFacts.cells_lookup.
  assert (Hfull : (full <= 35)%nat) by (unfold full, Bar.bar_width; lia).
  destruct (decide (Z.of_nat i < Bar.bar_width)) as [Hlt | Hge].
  - destruct (Z.ltb_spec (Z.of_nat i) blocks) as [Hb | Hb].
    + rewrite lookup_app_l by (rewrite length_replicate;
                              unfold full, Bar.bar_width in *; lia).
      symmetry. apply lookup_replicate_2.
      unfold full, Bar.bar_width in *. lia.
    + rewrite lookup_app_r by (rewrite length_replicate;
                              unfold full, Bar.bar_width in *; lia).
      symmetry. apply lookup_replicate_2. rewrite length_replicate.
      unfold full, Bar.bar_width in *. lia.
  - symmetry. apply lookup_ge_None_2.
    rewrite length_app, !length_replicate. unfold Bar.bar_width in *. lia.
Qed.

(** X24: the percentage [draw_progress_bar] prints is within 0 and 100
    for every input that is a number, the infinities included; a NaN is
    left as it is, since both comparisons fail on it. *)
Theorem progress_bar_percentage_clamped (percentage : float) :
  (Prim2SF percentage <> S754_nan ->
   PrimFloat.leb 0%float (Bar.clamp percentage) = true
   /\ PrimFloat.leb (Bar.clamp percentage) 100%float = true)
  /\ (Prim2SF percentage = S754_nan -> Bar.clamp percentage = percentage).
Proof.
  split.
  - intros Hnan. unfold Bar.clamp.
    destruct (PrimFloat.ltb percentage 0%float) eqn:H0.
    + replace (PrimFloat.ltb 100%float 0%float) with false
        by (vm_compute; reflexivity).
      split; vm_compute; reflexivity.
    + destruct (PrimFloat.ltb 100%float percentage) eqn:H100.
      * split; vm_compute; reflexivity.
      * split; [apply BarFacts.ltb_0_leb | apply BarFacts.ltb_100_leb];
          assumption.
  - intros Hnan. unfold Bar.clamp.
    rewrite (ltb_spec percentage 0%float), Hnan.
    replace (SFltb S754_nan (Prim2SF 0%float)) with false
      by (vm_compute; reflexivity).
    rewrite (ltb_spec 100%float percentage), Hnan.
    replace (SFltb (Prim2SF 100%float) S754_nan) with false
      by (vm_compute; reflexivity).
    reflexivity.
Qed.

Lemma progress_bar_percentage_clamped_witness :
  (PrimFloat.leb 0%float (Bar.clamp 150%float) = true
   /\ PrimFloat.leb (Bar.clamp 150%float) 100%float = true)
  /\ Bar.clamp PrimFloat.nan = PrimFloat.nan
  /\ Bar.clamp 150%float = 100%float
  /\ Bar.clamp PrimFloat.neg_infinity = 0%float.
Proof.
  split; [| split; [| split; vm_compute; reflexivity]].
  - apply (proj1 (progress_bar_percentage_clamped 150%float)).
    vm_compute. discriminate.
  - apply (proj2 (progress_bar_percentage_clamped PrimFloat.nan)).
    vm_compute. reflexivity.
Defined.

(** X25: [main] draws a bar only for a usage that passes [x >= 0], so the
    first test of [draw_progress_bar], [percentage < 0.0], never holds
    there: only the upper bound can change the number printed. *)
Theorem main_bar_lower_clamp_unused (usage : float) :
  MainLoop.bar_drawn usage = true ->
  PrimFloat.ltb usage 0%float = false
  /\ Bar.clamp usage
     = if PrimFloat.ltb 100%float usage then 100%float else usage.
Proof.
  unfold MainLoop.bar_drawn. intros Hdrawn.
  assert (H0 : PrimFloat.ltb usage 0%float = false).
  { revert Hdrawn. rewrite leb_spec, ltb_spec.
    replace (Prim2SF 0%float) with (S754_zero false)
      by (vm_compute; reflexivity).
    destruct (Prim2SF usage) as [[|] | [|] | | [|] m e];
      unfold SFltb, SFleb, SFcompare; congruence. }
  split; [exact H0 |]. unfold Bar.clamp. rewrite H0. reflexivity.
Qed.

Lemma main_bar_lower_clamp_unused_witness :
  PrimFloat.ltb 42%float 0%float = false
  /\ Bar.clamp 42%float
     = if PrimFloat.ltb 100%float 42%float then 100%float else 42%float.
Proof.
  apply (main_bar_lower_clamp_unused 42%float). vm_compute. reflexivity.
Defined.

(** X26: [draw_box], for a box of at least two rows and two columns,
    writes to every cell on the edge of the rectangle, to no other cell,
    and to no cell twice. *)
Theorem draw_box_border_once (y x height width : Z) :
  2 <= height -> 2 <= width ->
  NoDup (Box.position <$> Box.draw_box y x height width)
  /\ forall p : Z * Z,
       p ∈ Box.position <$> Box.draw_box y x height width
       <-> Box.on_border y x height width p.
Proof.
  intros Hh Hw. split; [apply BoxFacts.positions_NoDup; assumption |].
  intros [r c]. rewrite BoxFacts.elem_of_positions.
  unfold Box.on_border. simpl. split.
  - intros [Heq | [Heq | [Heq | [Heq | [(i & Hi & [Heq | Heq])
                                       | (i & Hi & [Heq | Heq])]]]]];
      injection Heq as -> ->; lia.
  - intros (Hr & Hc & Hedge).
    destruct (Z.eq_dec r y) as [-> | Hry].
    { destruct (Z.eq_dec c x) as [-> | Hcx]; [auto |].
      destruct (Z.eq_dec c (x + width - 1)) as [-> | Hcw]; [auto |].
      do 4 right. left. exists (c - x). split; [lia |].
      left. f_equal. lia. }
    destruct (Z.eq_dec r (y + height - 1)) as [-> | Hrh].
    { destruct (Z.eq_dec c x) as [-> | Hcx]; [auto |].
      destruct (Z.eq_dec c (x + width - 1)) as [-> | Hcw]; [auto 6 |].
      do 4 right. left. exists (c - x). split; [lia |].
      right. f_equal. lia. }
    do 5 right. exists (r - y). split; [lia |].
    destruct Hedge as [? | [? | [-> | ->]]]; try lia.
    + left. f_equal. lia.
    + right. f_equal. lia.
Qed.

Lemma draw_box_border_once_witness :
  NoDup (Box.position <$> Box.draw_box 1 2 14 70)
  /\ forall p : Z * Z,
       p ∈ Box.position <$> Box.draw_box 1 2 14 70
       <-> Box.on_border 1 2 14 70 p.
Proof.
  apply (draw_box_border_once 1 2 14 70); lia.
Defined.
